(** * Game of Life canvas driver: a shallow embedding and its properties

    The development follows the two JavaScript drivers of the repository:
    the canvas driver (constants, [drawGrid], [getIndex], [drawCells],
    [renderLoop], [run]) and the text-only driver of [game_of_life_pre]
    ([run], [renderLoop]).

    JavaScript numbers are binary64 values.  Every number the drivers
    compute is an integer built with [+] and [*], and binary64 arithmetic on
    integers is exact as long as no result reaches 2^53 in magnitude.  The
    drivers are modelled on [Z], which agrees with the source in that range:
    the pixel coordinates built from 32-bit dimensions stay below 2^36, and
    the cell indices stay below [width * height], the number of bytes of the
    state buffer.  Beyond 2^53 the source rounds; [round_binary64] models
    that rounding, [getIndex_binary64] is the index computation with it, and
    the statements about [getIndex] on its own carry the bound under which
    the two agree.

    Host effects (console, DOM, canvas context, frame scheduler) are recorded
    as a trace of events, one event per call or assignment of the source, in
    program order.  The engine (the generated [pkg] module and the wasm
    instance behind it) is an abstract state machine given by an interface.
    The page is taken to hold the elements the drivers look up, and the
    canvas to provide a 2D context: these lookups leave no event. *)

From Stdlib Require Import ZArith List String Bool Lia.
Import ListNotations.
Open Scope string_scope.
Open Scope list_scope.
Open Scope Z_scope.

(** ** Errors and completions *)

Inductive JsError : Type :=
| TypeError
| RangeError
| HostError (msg : string).

(** A JavaScript completion: a value, or a thrown error. *)
Inductive Completion (A : Type) : Type :=
| Normal (a : A)
| Throw (e : JsError).
Arguments Normal {A} a.
Arguments Throw {A} e.

(** ** The frame callbacks

    Each closure handed to [requestAnimationFrame] is named by the function
    it closes over, with the constants it captured. *)
Inductive Callback : Type :=
| CanvasRenderLoop (width height : Z)
| PreRenderLoop.

(** ** Host events

    One constructor per call or assignment the drivers make on the host.
    [ReadCell] is not a host call: it records an indexed read of the state
    view with the value obtained, so that statements can speak of the reads
    a routine performs. *)
Inductive Event : Type :=
| ConsoleError (e : JsError)
| SetCanvasHeight (v : Z)
| SetCanvasWidth (v : Z)
| SetTextContent (s : string)
| UniverseTick
| BeginPath
| SetStrokeStyle (c : string)
| MoveTo (x y : Z)
| LineTo (x y : Z)
| Stroke
| SetFillStyle (c : string)
| FillRect (x y w h : Z)
| ReadCell (idx : Z) (v : option Z)
| RequestAnimationFrame (cb : Callback).

(** ** The engine interface

    [E] is the state of the imported engine module: the glue code's module
    variable, the wasm instance when there is one, its linear memory and the
    universe living in it.  [init] instantiates the module (the promise
    rejects with an error, or resolves in a new state); [Universe_new] may
    throw; the other operations are the total operations of the engine
    contract. *)
Class SimulationEngine (E : Type) : Type := {
  init : E -> JsError + E;
  Universe_new : E -> Completion E;
  Universe_width : E -> Z;
  Universe_height : E -> Z;
  Universe_cells : E -> Z;
  Universe_render : E -> string;
  Universe_tick : E -> E;
  memory_buffer : E -> list Byte.byte
}.

(** ** The world: engine state, trace of host events, pending frame callbacks *)
Record World (E : Type) : Type := mkWorld {
  engine : E;
  trace : list Event;
  pending : list Callback
}.
Arguments mkWorld {E} _ _ _.
Arguments engine {E} _.
Arguments trace {E} _.
Arguments pending {E} _.

(** ** A state and error monad over the world *)
Definition M (E A : Type) : Type := World E -> Completion A * World E.

Definition ret {E A} (a : A) : M E A := fun w => (Normal a, w).

Definition bind {E A B} (c : M E A) (k : A -> M E B) : M E B :=
  fun w =>
    match c w with
    | (Normal a, w') => k a w'
    | (Throw e, w') => (Throw e, w')
    end.

Definition throw {E A} (e : JsError) : M E A := fun w => (Throw e, w).

Notation "x <- c ;; k" := (bind c (fun x => k))
  (at level 61, c at next level, right associativity).
Notation "c ;; k" := (bind c (fun _ => k))
  (at level 61, right associativity).

Definition log {E} (ev : Event) : M E unit :=
  fun w => (Normal tt, mkWorld (engine w) (trace w ++ [ev]) (pending w)).

Definition gets {E A} (f : E -> A) : M E A :=
  fun w => (Normal (f (engine w)), w).

Definition modify_engine {E} (f : E -> E) : M E unit :=
  fun w => (Normal tt, mkWorld (f (engine w)) (trace w) (pending w)).

Definition lift_completion {E A} (c : Completion A) : M E A :=
  fun w => (c, w).

(** [requestAnimationFrame(cb)]: the callback joins the pending list. *)
Definition requestAnimationFrame {E} (cb : Callback) : M E unit :=
  fun w => (Normal tt,
            mkWorld (engine w) (trace w ++ [RequestAnimationFrame cb])
                    (pending w ++ [cb])).

(** ** Counting loops

    [for (let i = i0; i < bound; i++) body] and its [<=] variant.  The
    number of iterations is computed up front, which makes the loops total;
    [for_lt_unfold] and [for_le_unfold] below show that they satisfy the
    test-body-increment equation of the source loop. *)
Fixpoint for_from {E} (n : nat) (i : Z) (body : Z -> M E unit) : M E unit :=
  match n with
  | O => ret tt
  | S n' => body i ;; for_from n' (i + 1) body
  end.

Definition for_lt {E} (i bound : Z) (body : Z -> M E unit) : M E unit :=
  for_from (Z.to_nat (bound - i)) i body.

Definition for_le {E} (i bound : Z) (body : Z -> M E unit) : M E unit :=
  for_from (Z.to_nat (bound + 1 - i)) i body.

(** ** Typed arrays

    [new Uint8Array(buffer, byteOffset, length)] overlays the buffer without
    copying it: the view keeps the buffer, the offset and the length.  The
    constructor throws a [RangeError] for a negative offset or length and
    when [byteOffset + length] exceeds the buffer's byte length; it performs
    no other check. *)
Record Uint8Array : Type := mkUint8Array {
  ta_buffer : list Byte.byte;
  ta_byteOffset : Z;
  ta_length : Z
}.

Definition byteLength (buffer : list Byte.byte) : Z :=
  Z.of_nat (List.length buffer).

Definition Uint8Array_new (buffer : list Byte.byte) (byteOffset length : Z)
  : Completion Uint8Array :=
  if (byteOffset <? 0) || (length <? 0) then Throw RangeError
  else if byteLength buffer <? byteOffset + length then Throw RangeError
  else Normal (mkUint8Array buffer byteOffset length).

(** [a[idx]]: the byte at [byteOffset + idx] for an index inside the view,
    [undefined] (here [None]) for any other index; it never throws. *)
Definition Uint8Array_get (a : Uint8Array) (idx : Z) : option Z :=
  if (0 <=? idx) && (idx <? ta_length a)
  then option_map (fun b => Z.of_N (Byte.to_N b))
                  (nth_error (ta_buffer a) (Z.to_nat (ta_byteOffset a + idx)))
  else None.

(** [v === n] for a typed-array read [v] and a number [n]. *)
Definition strict_eq (v : option Z) (n : Z) : bool :=
  match v with
  | Some x => x =? n
  | None => false
  end.

(** Modelled from the spec: the constant [Cell.Dead] of the generated engine
    module, which is not among the sources; the data model gives the dead
    state the byte 0. *)
Definition Cell_Dead : Z := 0.

(** ** Arithmetic on binary64 numbers that hold integers

    [round_binary64 x] is the binary64 value nearest to the integer [x],
    ties going to the even significand: integers below 2^53 in magnitude are
    kept, larger ones are rounded to a multiple of the unit in the last
    place of their binade, and a result of magnitude 2^1024 or more is an
    infinity, [None] here.  [js_mul] and [js_add] are [*] and [+] on two
    binary64 numbers that hold integers: the exact result, rounded. *)
Definition round_binary64 (x : Z) : option Z :=
  let a := Z.abs x in
  if a <? 2 ^ 53 then Some x
  else
    let e := Z.log2 a - 52 in
    let q := a / 2 ^ e in
    let r := a mod 2 ^ e in
    let half := 2 ^ (e - 1) in
    let q' := if r <? half then q
              else if half <? r then q + 1
              else if Z.even q then q else q + 1 in
    if q' * 2 ^ e <? 2 ^ 1024 then Some (Z.sgn x * (q' * 2 ^ e)) else None.

Definition js_mul (a b : Z) : option Z := round_binary64 (a * b).

Definition js_add (a b : Z) : option Z := round_binary64 (a + b).

(** [row * width + column] as the source computes it: the product is
    rounded, then the sum; an infinite product gives an infinite sum. *)
Definition getIndex_binary64 (width row column : Z) : option Z :=
  match js_mul row width with
  | Some product => js_add product column
  | None => None
  end.

(** ** Startup steps the two drivers share *)
Section Startup.
Context {E : Type} `{SimulationEngine E}.

(** [await init().catch(console.error)]: on rejection the error is logged
    and the awaited value is [undefined] ([false] here); on success it is
    the instantiated module. *)
Definition await_init_catch : M E bool :=
  fun w =>
    match init (engine w) with
    | inl err =>
        (Normal false,
         mkWorld (engine w) (trace w ++ [ConsoleError err]) (pending w))
    | inr e' => (Normal true, mkWorld e' (trace w) (pending w))
    end.

(** [Universe.new()]. *)
Definition Universe_new_call : M E unit :=
  fun w =>
    match Universe_new (engine w) with
    | Normal e' => (Normal tt, mkWorld e' (trace w) (pending w))
    | Throw err => (Throw err, w)
    end.

End Startup.

(** ** The canvas driver *)
Module Canvas.

Definition CELL_SIZE : Z := 5.
Definition GRID_COLOR : string := "#CCCCCC".
Definition DEAD_COLOR : string := "#FFFFFF".
Definition ALIVE_COLOR : string := "#000000".

(** [row * width + column] on integers.  The source evaluates it in
    binary64, which gives this value whenever the result is below 2^53
    ([getIndex_binary64_exact]); [drawCells] calls it on the cells of a grid
    whose [width * height] bytes lie in the buffer
    ([getIndex_binary64_under_view]). *)
Definition getIndex (width row column : Z) : Z :=
  row * width + column.

Section Driver.
Context {E : Type} `{SimulationEngine E}.

Definition drawGrid (width height : Z) : M E unit :=
  log BeginPath ;;
  log (SetStrokeStyle GRID_COLOR) ;;
  for_le 0 width (fun i =>
    log (MoveTo (i * (CELL_SIZE + 1) + 1) 0) ;;
    log (LineTo (i * (CELL_SIZE + 1) + 1) ((CELL_SIZE + 1) * height + 1))) ;;
  for_le 0 height (fun j =>
    log (MoveTo 0 (j * (CELL_SIZE + 1) + 1)) ;;
    log (LineTo ((CELL_SIZE + 1) * width + 1) (j * (CELL_SIZE + 1) + 1))) ;;
  log Stroke.

(** The colour expression [cells[idx] === Cell.Dead ? DEAD_COLOR : ALIVE_COLOR]. *)
Definition cellColor (v : option Z) : string :=
  if strict_eq v Cell_Dead then DEAD_COLOR else ALIVE_COLOR.

Definition drawCells (width height : Z) : M E unit :=
  cellsPtr <- gets Universe_cells ;;
  buffer <- gets memory_buffer ;;
  cells <- lift_completion (Uint8Array_new buffer cellsPtr (width * height)) ;;
  log BeginPath ;;
  for_lt 0 height (fun row =>
    for_lt 0 width (fun col =>
      let idx := getIndex width row col in
      let v := Uint8Array_get cells idx in
      log (ReadCell idx v) ;;
      log (SetFillStyle (cellColor v)) ;;
      log (FillRect (col * (CELL_SIZE + 1) + 1)
                    (row * (CELL_SIZE + 1) + 1)
                    CELL_SIZE CELL_SIZE))) ;;
  log Stroke.

Definition renderLoop (width height : Z) : M E unit :=
  text <- gets Universe_render ;;
  log (SetTextContent text) ;;
  modify_engine Universe_tick ;;
  log UniverseTick ;;
  drawGrid width height ;;
  drawCells width height ;;
  requestAnimationFrame (CanvasRenderLoop width height).

Definition run : M E unit :=
  wasm <- await_init_catch ;;
  (* [wasm.memory]: a property read on [undefined] throws *)
  (if wasm : bool then ret tt else throw TypeError) ;;
  Universe_new_call ;;
  width <- gets Universe_width ;;
  height <- gets Universe_height ;;
  log (SetCanvasHeight ((CELL_SIZE + 1) * height + 1)) ;;
  log (SetCanvasWidth ((CELL_SIZE + 1) * width + 1)) ;;
  requestAnimationFrame (CanvasRenderLoop width height).

End Driver.
End Canvas.

(** ** The text-only driver of [game_of_life_pre] *)
Module Pre.
Section Driver.
Context {E : Type} `{SimulationEngine E}.

Definition renderLoop : M E unit :=
  text <- gets Universe_render ;;
  log (SetTextContent text) ;;
  modify_engine Universe_tick ;;
  log UniverseTick ;;
  requestAnimationFrame PreRenderLoop.

(** Here the awaited value is not used: after a rejected [init] the
    function goes on to [Universe.new()]. *)
Definition run : M E unit :=
  _ <- await_init_catch ;;
  Universe_new_call ;;
  requestAnimationFrame PreRenderLoop.

End Driver.
End Pre.

(** ** The host's frame scheduler

    At a display refresh the host runs the callbacks that were pending when
    the refresh started; a callback that throws is reported by the host and
    does not stop the others.  With nothing pending the host has nothing to
    run: the animation is over. *)
Section Scheduler.
Context {E : Type} `{SimulationEngine E}.

Definition run_callback (cb : Callback) : M E unit :=
  match cb with
  | CanvasRenderLoop width height => Canvas.renderLoop width height
  | PreRenderLoop => Pre.renderLoop
  end.

Fixpoint run_callbacks (cbs : list Callback) (w : World E) : World E :=
  match cbs with
  | [] => w
  | cb :: rest => run_callbacks rest (snd (run_callback cb w))
  end.

Definition host_frame (w : World E) : World E :=
  run_callbacks (pending w) (mkWorld (engine w) (trace w) []).

Fixpoint host_frames (n : nat) (w : World E) : World E :=
  match n with
  | O => w
  | S n' => host_frames n' (host_frame w)
  end.

(** The state at page load, and the state startup leaves behind. *)
Definition page_load (e : E) : World E := mkWorld e [] [].

End Scheduler.

(** ** What the canvas does with the calls it receives

    The 2D context keeps a fill style, a stroke style and a current path;
    [stroke] paints the segments of the current path in the stroke style,
    [fillRect] paints a rectangle in the fill style and leaves the path
    alone.  Assigning the canvas width or height resets the bitmap and the
    context. *)
Definition Point : Type := Z * Z.

Inductive PathCmd : Type :=
| PMoveTo (p : Point)
| PLineTo (p : Point).

Inductive Paint : Type :=
| StrokedPath (style : string) (segments : list (Point * Point))
| FilledRect (style : string) (x y w h : Z).

Record CanvasState : Type := mkCanvas {
  cv_width : Z;
  cv_height : Z;
  cv_fillStyle : string;
  cv_strokeStyle : string;
  cv_path : list PathCmd;
  cv_painted : list Paint
}.

Definition blank_canvas (width height : Z) : CanvasState :=
  mkCanvas width height "#000000" "#000000" [] [].

(** The segments of a path: [moveTo] starts a subpath, [lineTo] joins the
    current point to its argument (and only moves when there is none). *)
Fixpoint path_segments (cur : option Point) (cmds : list PathCmd)
  : list (Point * Point) :=
  match cmds with
  | [] => []
  | PMoveTo p :: rest => path_segments (Some p) rest
  | PLineTo p :: rest =>
      match cur with
      | Some q => (q, p) :: path_segments (Some p) rest
      | None => path_segments (Some p) rest
      end
  end.

Definition canvas_step (c : CanvasState) (ev : Event) : CanvasState :=
  match ev with
  | SetCanvasHeight v => blank_canvas (cv_width c) v
  | SetCanvasWidth v => blank_canvas v (cv_height c)
  | BeginPath =>
      mkCanvas (cv_width c) (cv_height c) (cv_fillStyle c) (cv_strokeStyle c)
               [] (cv_painted c)
  | SetStrokeStyle s =>
      mkCanvas (cv_width c) (cv_height c) (cv_fillStyle c) s
               (cv_path c) (cv_painted c)
  | SetFillStyle s =>
      mkCanvas (cv_width c) (cv_height c) s (cv_strokeStyle c)
               (cv_path c) (cv_painted c)
  | MoveTo x y =>
      mkCanvas (cv_width c) (cv_height c) (cv_fillStyle c) (cv_strokeStyle c)
               (cv_path c ++ [PMoveTo (x, y)]) (cv_painted c)
  | LineTo x y =>
      mkCanvas (cv_width c) (cv_height c) (cv_fillStyle c) (cv_strokeStyle c)
               (cv_path c ++ [PLineTo (x, y)]) (cv_painted c)
  | Stroke =>
      mkCanvas (cv_width c) (cv_height c) (cv_fillStyle c) (cv_strokeStyle c)
               (cv_path c)
               (cv_painted c
                  ++ [StrokedPath (cv_strokeStyle c)
                                  (path_segments None (cv_path c))])
  | FillRect x y w h =>
      mkCanvas (cv_width c) (cv_height c) (cv_fillStyle c) (cv_strokeStyle c)
               (cv_path c)
               (cv_painted c ++ [FilledRect (cv_fillStyle c) x y w h])
  | _ => c
  end.

Definition canvas_run (c : CanvasState) (t : list Event) : CanvasState :=
  fold_left canvas_step t c.

(** The canvas element as the page declares it, before any script runs
    (the default size of a canvas element). *)
Definition initial_canvas : CanvasState := blank_canvas 300 150.

(** ** Vocabulary of the statements *)

(** [Zseq i n] is [i; i+1; ...; i+n-1]. *)
Fixpoint Zseq (i : Z) (n : nat) : list Z :=
  match n with
  | O => []
  | S n' => i :: Zseq (i + 1) n'
  end.

(** The cells of a [width] by [height] grid, row by row. *)
Definition row_major (width height : Z) : list (Z * Z) :=
  map (fun k => (k / width, k mod width)) (Zseq 0 (Z.to_nat (width * height))).

Definition emit {E} (evs : list Event) : M E unit :=
  fun w => (Normal tt, mkWorld (engine w) (trace w ++ evs) (pending w)).

Definition vertical_line (height i : Z) : Point * Point :=
  ((i * (Canvas.CELL_SIZE + 1) + 1, 0),
   (i * (Canvas.CELL_SIZE + 1) + 1, (Canvas.CELL_SIZE + 1) * height + 1)).

Definition horizontal_line (width j : Z) : Point * Point :=
  ((0, j * (Canvas.CELL_SIZE + 1) + 1),
   ((Canvas.CELL_SIZE + 1) * width + 1, j * (Canvas.CELL_SIZE + 1) + 1)).

Definition is_stroke (ev : Event) : bool :=
  match ev with Stroke => true | _ => false end.

Definition is_strokeStyle (ev : Event) : bool :=
  match ev with SetStrokeStyle _ => true | _ => false end.

Definition is_fillStyle (ev : Event) : bool :=
  match ev with SetFillStyle _ => true | _ => false end.

Definition is_read (ev : Event) : bool :=
  match ev with ReadCell _ _ => true | _ => false end.

Definition is_resize (ev : Event) : bool :=
  match ev with SetCanvasHeight _ | SetCanvasWidth _ => true | _ => false end.

Definition is_tick (ev : Event) : bool :=
  match ev with UniverseTick => true | _ => false end.

(** The engine honours its contract for the driver's view when the
    [width * height] bytes at [cells()] lie inside the memory buffer. *)
Definition cells_in_memory {E} `{SimulationEngine E} (width height : Z) (e : E)
  : bool :=
  (0 <=? Universe_cells e) && (0 <=? width * height)
  && (Universe_cells e + width * height <=? byteLength (memory_buffer e)).

(** The events of the driver's two drawing routines, written as lists. *)
Definition grid_events (width height : Z) : list Event :=
  [BeginPath; SetStrokeStyle Canvas.GRID_COLOR]
  ++ flat_map (fun i =>
       [MoveTo (i * (Canvas.CELL_SIZE + 1) + 1) 0;
        LineTo (i * (Canvas.CELL_SIZE + 1) + 1)
               ((Canvas.CELL_SIZE + 1) * height + 1)])
       (Zseq 0 (Z.to_nat (width + 1)))
  ++ flat_map (fun j =>
       [MoveTo 0 (j * (Canvas.CELL_SIZE + 1) + 1);
        LineTo ((Canvas.CELL_SIZE + 1) * width + 1)
               (j * (Canvas.CELL_SIZE + 1) + 1)])
       (Zseq 0 (Z.to_nat (height + 1)))
  ++ [Stroke].

Definition cell_events (width : Z) (cells : Uint8Array) (rc : Z * Z)
  : list Event :=
  let idx := fst rc * width + snd rc in
  [ReadCell idx (Uint8Array_get cells idx);
   SetFillStyle (Canvas.cellColor (Uint8Array_get cells idx));
   FillRect (snd rc * (Canvas.CELL_SIZE + 1) + 1)
            (fst rc * (Canvas.CELL_SIZE + 1) + 1)
            Canvas.CELL_SIZE Canvas.CELL_SIZE].

Definition cells_events (width height : Z) (cells : Uint8Array) : list Event :=
  [BeginPath] ++ flat_map (cell_events width cells) (row_major width height)
  ++ [Stroke].

(** The calls that draw one line, and the path they build. *)
Definition line_events (f : Z -> Point * Point) (i : Z) : list Event :=
  [MoveTo (fst (fst (f i))) (snd (fst (f i)));
   LineTo (fst (snd (f i))) (snd (snd (f i)))].

Definition line_path (f : Z -> Point * Point) (i : Z) : list PathCmd :=
  [PMoveTo (fst (f i)); PLineTo (snd (f i))].

(** The rectangle painted for a cell: its colour is the colour of the byte
    read for it. *)
Definition cell_rect (width : Z) (cells : Uint8Array) (rc : Z * Z) : Paint :=
  FilledRect (Canvas.cellColor (Uint8Array_get cells (fst rc * width + snd rc)))
             (snd rc * (Canvas.CELL_SIZE + 1) + 1)
             (fst rc * (Canvas.CELL_SIZE + 1) + 1)
             Canvas.CELL_SIZE Canvas.CELL_SIZE.

(** The events of [drawCells] over the ranges of its two loops. *)
Definition nested_cells_events (width height : Z) (cells : Uint8Array)
  : list Event :=
  [BeginPath]
  ++ flat_map (fun row =>
       flat_map (fun col => cell_events width cells (row, col))
                (Zseq 0 (Z.to_nat width)))
       (Zseq 0 (Z.to_nat height))
  ++ [Stroke].

(** ** A small engine to run the driver on

    A module that loads or fails to load, a 3 by 2 universe stored at
    offset 1 of its memory, and a step that inverts every cell. *)
Record Toy : Type := mkToy {
  toy_loadable : bool;
  toy_loaded : bool;
  toy_memory : list Byte.byte
}.

Definition toy_flip (b : Byte.byte) : Byte.byte :=
  match b with
  | Byte.x00 => Byte.x01
  | _ => Byte.x00
  end.

Definition toy_cells : list Byte.byte :=
  [Byte.xff; Byte.x00; Byte.x01; Byte.x00; Byte.x01; Byte.x01; Byte.x00;
   Byte.xff].

#[export] Instance toy_engine : SimulationEngine Toy := {|
  init t :=
    if toy_loadable t then inr (mkToy true true (toy_memory t))
    else inl (HostError "module failed to load");
  Universe_new t :=
    if toy_loaded t
    then Normal (mkToy (toy_loadable t) true toy_cells)
    else Throw TypeError;
  Universe_width _ := 3;
  Universe_height _ := 2;
  Universe_cells _ := 1;
  Universe_render t :=
    if toy_loaded t then "universe" else "";
  Universe_tick t :=
    mkToy (toy_loadable t) (toy_loaded t) (map toy_flip (toy_memory t));
  memory_buffer := toy_memory
|}.

(** The toy module before loading (loadable or not) and with its universe. *)
Definition toy_unloaded (loadable : bool) : Toy := mkToy loadable false [].
Definition toy_running : Toy := mkToy true true toy_cells.

(** ** Vocabulary of the further properties *)

Definition is_fillRect (ev : Event) : bool :=
  match ev with FillRect _ _ _ _ => true | _ => false end.

(** The calls made on the 2D context. *)
Definition is_canvas_call (ev : Event) : bool :=
  match ev with
  | BeginPath | SetStrokeStyle _ | MoveTo _ _ | LineTo _ _ | Stroke
  | SetFillStyle _ | FillRect _ _ _ _ => true
  | _ => false
  end.

(** The view [drawCells] builds on engine state [e] when the cells fit. *)
Definition state_view {E} `{SimulationEngine E} (width height : Z) (e : E)
  : Uint8Array :=
  mkUint8Array (memory_buffer e) (Universe_cells e) (width * height).

(** The events of one complete frame of the canvas driver started on engine
    state [e]: the text of [e], the step, the grid, the cells of the stepped
    state, the next request. *)
Definition canvas_frame_events {E} `{SimulationEngine E}
           (width height : Z) (e : E) : list Event :=
  [SetTextContent (Universe_render e); UniverseTick]
  ++ grid_events width height
  ++ nested_cells_events width height
       (state_view width height (Universe_tick e))
  ++ [RequestAnimationFrame (CanvasRenderLoop width height)].

(** The events of one frame of the text-only driver started on [e]. *)
Definition pre_frame_events {E} `{SimulationEngine E} (e : E) : list Event :=
  [SetTextContent (Universe_render e); UniverseTick;
   RequestAnimationFrame PreRenderLoop].



(** An engine whose module loads and whose universe cannot be created. *)
#[export] Instance trap_engine : SimulationEngine unit := {|
  init _ := inr tt;
  Universe_new _ := Throw (HostError "unreachable executed");
  Universe_width _ := 0;
  Universe_height _ := 0;
  Universe_cells _ := 0;
  Universe_render _ := "";
  Universe_tick _ := tt;
  memory_buffer _ := []
|}.

(** * Properties *)

(** ** Ranges *)

Lemma Zseq_length (n : nat) : forall i, List.length (Zseq i n) = n.
Proof. induction n; intros; simpl; [reflexivity | now rewrite IHn]. Qed.

Lemma Zseq_app (a b : nat) :
  forall i, Zseq i (a + b) = Zseq i a ++ Zseq (i + Z.of_nat a) b.
Proof.
  induction a as [|a IH]; intros i.
  - simpl. now rewrite Z.add_0_r.
  - cbn [Nat.add Zseq app]. rewrite IH. do 3 f_equal. lia.
Qed.

Lemma Zseq_shift (n : nat) :
  forall i, Zseq i n = map (Z.add i) (Zseq 0 n).
Proof.
  induction n as [|n IH]; intros i; [reflexivity|].
  cbn [Zseq map]. rewrite Z.add_0_r. f_equal.
  rewrite (IH (i + 1)), (IH (0 + 1)), map_map.
  apply map_ext. intros. lia.
Qed.

Lemma Zseq_In (n : nat) :
  forall i x, In x (Zseq i n) <-> i <= x < i + Z.of_nat n.
Proof.
  induction n as [|n IH]; intros i x.
  - simpl. lia.
  - cbn [Zseq In]. rewrite IH. lia.
Qed.

Lemma Zseq_nth (n : nat) :
  forall i k, (k < n)%nat -> nth_error (Zseq i n) k = Some (i + Z.of_nat k).
Proof.
  induction n as [|n IH]; intros i k Hk; [lia|].
  destruct k as [|k]; simpl.
  - now rewrite Z.add_0_r.
  - rewrite IH by lia. f_equal. lia.
Qed.

Lemma Zseq_NoDup (n : nat) : forall i, NoDup (Zseq i n).
Proof.
  induction n as [|n IH]; intros i; simpl; constructor.
  - rewrite Zseq_In. lia.
  - apply IH.
Qed.

(** ** Index arithmetic of the grid *)

Lemma cell_index_range (width height row col : Z) :
  0 <= row < height -> 0 <= col < width ->
  0 <= row * width + col < width * height.
Proof. intros. nia. Qed.

Lemma cell_index_div (width row col : Z) :
  0 <= col < width -> (row * width + col) / width = row.
Proof.
  intros. symmetry. apply Z.div_unique with (r := col); lia.
Qed.

Lemma cell_index_mod (width row col : Z) :
  0 <= col < width -> (row * width + col) mod width = col.
Proof.
  intros. symmetry. apply Z.mod_unique with (q := row); lia.
Qed.

(** The two nested counting loops enumerate the grid row by row. *)
Lemma nested_ranges_row_major (width height : Z) :
  0 < width -> 0 <= height ->
  flat_map (fun row => map (fun col => (row, col)) (Zseq 0 (Z.to_nat width)))
           (Zseq 0 (Z.to_nat height))
  = row_major width height.
Proof.
  intros Hw Hh. unfold row_major.
  rewrite <- (Z2Nat.id height Hh) at 2.
  generalize (Z.to_nat height) as n. clear height Hh.
  induction n as [|n IH].
  - rewrite Z.mul_0_r. reflexivity.
  - replace (S n) with (n + 1)%nat at 1 by lia.
    rewrite Zseq_app, flat_map_app, IH. cbn [Zseq flat_map].
    rewrite app_nil_r.
    replace (Z.to_nat (width * Z.of_nat (S n)))
      with (Z.to_nat (width * Z.of_nat n) + Z.to_nat width)%nat by nia.
    rewrite Zseq_app, map_app. f_equal.
    rewrite (Zseq_shift (Z.to_nat width) (0 + Z.of_nat (Z.to_nat _))), map_map.
    apply map_ext_in. intros c Hc. apply Zseq_In in Hc.
    rewrite Z2Nat.id by nia.
    replace (0 + width * Z.of_nat n + c) with (Z.of_nat n * width + c) by lia.
    rewrite cell_index_div, cell_index_mod by lia.
    reflexivity.
Qed.

Lemma row_major_length (width height : Z) :
  List.length (row_major width height) = Z.to_nat (width * height).
Proof. unfold row_major. now rewrite length_map, Zseq_length. Qed.

Lemma row_major_nth (width height k : Z) :
  0 <= k < width * height ->
  nth_error (row_major width height) (Z.to_nat k)
  = Some (k / width, k mod width).
Proof.
  intros Hk. unfold row_major.
  rewrite nth_error_map, Zseq_nth by lia.
  simpl. now rewrite Z2Nat.id by lia.
Qed.

Lemma row_major_In (width height row col : Z) :
  0 < width -> 0 <= height ->
  In (row, col) (row_major width height)
  <-> 0 <= row < height /\ 0 <= col < width.
Proof.
  intros Hw Hh. rewrite <- nested_ranges_row_major by assumption.
  rewrite in_flat_map. split.
  - intros (r & Hr & Hin). apply in_map_iff in Hin.
    destruct Hin as (c & Heq & Hc). inversion Heq; subst.
    apply Zseq_In in Hr, Hc. lia.
  - intros [Hr Hc]. exists row. split.
    + apply Zseq_In. lia.
    + apply in_map. apply Zseq_In. lia.
Qed.

Lemma row_major_NoDup (width height : Z) :
  0 < width -> NoDup (row_major width height).
Proof.
  intros Hw. unfold row_major.
  apply NoDup_map_NoDup_ForallPairs; [|apply Zseq_NoDup].
  intros a b _ _ Heq. inversion Heq as [[Hd Hm]].
  rewrite (Z.div_mod a width), (Z.div_mod b width) by lia.
  now rewrite Hd, Hm.
Qed.

Lemma flat_map_nested {A B C} (f : A -> B -> list C) (cols : list B) :
  forall rows,
    flat_map (fun r => flat_map (f r) cols) rows
    = flat_map (fun rc => f (fst rc) (snd rc))
               (flat_map (fun r => map (fun c => (r, c)) cols) rows).
Proof.
  induction rows as [|r rows IH]; [reflexivity|].
  cbn [flat_map]. rewrite flat_map_app, IH. f_equal.
  clear IH. induction cols as [|c cols IHc]; [reflexivity|].
  simpl. now rewrite IHc.
Qed.

(** On a grid of positive width, the events over the loop ranges are the
    events over the cells in row-major order. *)
Lemma nested_cells_events_row_major (width height : Z) (cells : Uint8Array) :
  0 < width -> 0 <= height ->
  nested_cells_events width height cells = cells_events width height cells.
Proof.
  intros Hw Hh. unfold nested_cells_events, cells_events.
  rewrite (flat_map_nested (fun r c => cell_events width cells (r, c))).
  rewrite nested_ranges_row_major by assumption.
  rewrite (flat_map_ext
             (fun rc => cell_events width cells (fst rc, snd rc))
             (cell_events width cells)) by now intros [r c].
  reflexivity.
Qed.

(** ** Running the monad *)
Section Running.
Context {E : Type} `{SimulationEngine E}.

Lemma emit_nil (w : World E) : emit [] w = (Normal tt, w).
Proof. destruct w. unfold emit. simpl. now rewrite app_nil_r. Qed.

Lemma emit_then {A} (evs : list Event) (k : M E A) (w : World E) :
  (emit evs ;; k) w = k (mkWorld (engine w) (trace w ++ evs) (pending w)).
Proof. reflexivity. Qed.

Lemma emit_emit (a b : list Event) (w : World E) :
  (emit a ;; emit b) w = emit (a ++ b) w.
Proof. unfold bind, emit. simpl. now rewrite app_assoc. Qed.

Lemma bind_emit_l {A} (c : M E unit) (evs : list Event) (k : M E A) :
  (forall w, c w = emit evs w) ->
  forall w, (c ;; k) w = (emit evs ;; k) w.
Proof. intros Hc w. unfold bind. now rewrite Hc. Qed.

(** The counting loops satisfy the equation of the source loop: test the
    bound, run the body, increment, repeat. *)
Lemma for_lt_unfold (i bound : Z) (body : Z -> M E unit) (w : World E) :
  for_lt i bound body w
  = (if i <? bound then (body i ;; for_lt (i + 1) bound body) else ret tt) w.
Proof.
  unfold for_lt. destruct (Z.ltb_spec i bound).
  - replace (Z.to_nat (bound - i)) with (S (Z.to_nat (bound - (i + 1)))) by lia.
    reflexivity.
  - replace (Z.to_nat (bound - i)) with O by lia. reflexivity.
Qed.

Lemma for_le_unfold (i bound : Z) (body : Z -> M E unit) (w : World E) :
  for_le i bound body w
  = (if i <=? bound then (body i ;; for_le (i + 1) bound body) else ret tt) w.
Proof.
  unfold for_le. destruct (Z.leb_spec i bound).
  - replace (Z.to_nat (bound + 1 - i))
      with (S (Z.to_nat (bound + 1 - (i + 1)))) by lia.
    reflexivity.
  - replace (Z.to_nat (bound + 1 - i)) with O by lia. reflexivity.
Qed.

(** A loop whose body only emits events emits them for each counter value
    in turn. *)
Lemma for_from_emit (evs : Z -> list Event) (body : Z -> M E unit) :
  (forall i w, body i w = emit (evs i) w) ->
  forall n i w, for_from n i body w = emit (flat_map evs (Zseq i n)) w.
Proof.
  intros Hbody. induction n as [|n IH]; intros i w.
  - simpl. now rewrite emit_nil.
  - cbn [for_from Zseq flat_map].
    rewrite (bind_emit_l _ _ _ (Hbody i)), emit_then, IH.
    unfold emit. simpl. now rewrite app_assoc.
Qed.

Lemma drawGrid_emit (width height : Z) (w : World E) :
  Canvas.drawGrid width height w = emit (grid_events width height) w.
Proof.
  unfold Canvas.drawGrid, grid_events, for_le.
  change (log BeginPath) with (@emit E [BeginPath]).
  rewrite emit_then.
  change (log (SetStrokeStyle Canvas.GRID_COLOR))
    with (@emit E [SetStrokeStyle Canvas.GRID_COLOR]).
  rewrite emit_then.
  rewrite (bind_emit_l _
    (flat_map (fun i =>
       [MoveTo (i * (Canvas.CELL_SIZE + 1) + 1) 0;
        LineTo (i * (Canvas.CELL_SIZE + 1) + 1)
               ((Canvas.CELL_SIZE + 1) * height + 1)])
       (Zseq 0 (Z.to_nat (width + 1 - 0)))));
    [|intros w'; apply for_from_emit; intros i w''; apply emit_emit].
  rewrite emit_then.
  rewrite (bind_emit_l _
    (flat_map (fun j =>
       [MoveTo 0 (j * (Canvas.CELL_SIZE + 1) + 1);
        LineTo ((Canvas.CELL_SIZE + 1) * width + 1)
               (j * (Canvas.CELL_SIZE + 1) + 1)])
       (Zseq 0 (Z.to_nat (height + 1 - 0)))));
    [|intros w'; apply for_from_emit; intros i w''; apply emit_emit].
  rewrite emit_then.
  unfold log, emit. cbn [engine trace pending].
  rewrite !Z.sub_0_r. now rewrite <- !app_assoc.
Qed.

(** [drawCells] when the view can be built, for any dimensions: the two
    loops emit the cell events of each row and column they range over,
    between [beginPath] and [stroke]. *)
Lemma drawCells_emit_nested (width height : Z) (cells : Uint8Array)
      (w : World E) :
  Uint8Array_new (memory_buffer (engine w)) (Universe_cells (engine w))
                 (width * height) = Normal cells ->
  Canvas.drawCells width height w
  = emit (nested_cells_events width height cells) w.
Proof.
  intros Hnew.
  unfold Canvas.drawCells, nested_cells_events, for_lt.
  unfold bind at 1. unfold gets at 1. unfold bind at 1. unfold gets at 1.
  unfold bind at 1. unfold lift_completion. rewrite Hnew.
  change (log BeginPath) with (@emit E [BeginPath]).
  rewrite emit_then.
  rewrite (bind_emit_l _
             (flat_map (fun row =>
                flat_map (fun col => cell_events width cells (row, col))
                         (Zseq 0 (Z.to_nat (width - 0))))
                (Zseq 0 (Z.to_nat (height - 0))))).
  - rewrite emit_then. unfold log, emit. cbn [engine trace pending].
    now rewrite !Z.sub_0_r, <- !app_assoc.
  - intros w'. apply for_from_emit. intros row w''.
    apply for_from_emit. intros col w3.
    unfold cell_events, Canvas.getIndex, bind, log, emit. simpl.
    now rewrite <- !app_assoc.
Qed.

(** On a grid of positive width the loops range over the cells in
    row-major order. *)
Lemma drawCells_emit (width height : Z) (cells : Uint8Array) (w : World E) :
  0 < width -> 0 <= height ->
  Uint8Array_new (memory_buffer (engine w)) (Universe_cells (engine w))
                 (width * height) = Normal cells ->
  Canvas.drawCells width height w = emit (cells_events width height cells) w.
Proof.
  intros Hw Hh Hnew.
  rewrite (drawCells_emit_nested _ _ _ _ Hnew).
  now rewrite nested_cells_events_row_major.
Qed.

(** [drawCells] when the view cannot be built: the error propagates and
    nothing is drawn. *)
Lemma drawCells_throw (width height : Z) (e : JsError) (w : World E) :
  Uint8Array_new (memory_buffer (engine w)) (Universe_cells (engine w))
                 (width * height) = Throw e ->
  Canvas.drawCells width height w = (Throw e, w).
Proof.
  intros Hnew. unfold Canvas.drawCells, bind, gets, lift_completion.
  now rewrite Hnew.
Qed.

End Running.

(** ** The canvas under the calls of the drawing routines *)

Lemma canvas_run_app (c : CanvasState) (t1 t2 : list Event) :
  canvas_run c (t1 ++ t2) = canvas_run (canvas_run c t1) t2.
Proof. apply fold_left_app. Qed.

Lemma canvas_run_lines (f : Z -> Point * Point) (l : list Z) :
  forall c,
    canvas_run c (flat_map (line_events f) l)
    = mkCanvas (cv_width c) (cv_height c) (cv_fillStyle c) (cv_strokeStyle c)
               (cv_path c ++ flat_map (line_path f) l) (cv_painted c).
Proof.
  induction l as [|i l IH]; intros c.
  - simpl. rewrite app_nil_r. now destruct c.
  - cbn [flat_map]. rewrite canvas_run_app, IH.
    unfold line_events, line_path. simpl.
    rewrite <- !surjective_pairing, <- !app_assoc. reflexivity.
Qed.

Lemma path_segments_lines (f : Z -> Point * Point) (l : list Z) :
  forall cur, path_segments cur (flat_map (line_path f) l) = map f l.
Proof.
  induction l as [|i l IH]; intros cur; [reflexivity|].
  simpl. rewrite IH. now rewrite <- surjective_pairing.
Qed.

Lemma path_segments_app_lines (f g : Z -> Point * Point) (l1 l2 : list Z) :
  path_segments None (flat_map (line_path f) l1 ++ flat_map (line_path g) l2)
  = map f l1 ++ map g l2.
Proof.
  generalize (@None Point) as cur.
  induction l1 as [|i l1 IH]; intros cur.
  - simpl. apply path_segments_lines.
  - simpl. rewrite IH. now rewrite <- surjective_pairing.
Qed.

(** What [drawGrid] leaves on the canvas, from any canvas state. *)
Lemma grid_events_canvas (width height : Z) (c : CanvasState) :
  cv_painted (canvas_run c (grid_events width height))
  = cv_painted c
    ++ [StrokedPath Canvas.GRID_COLOR
          (map (vertical_line height) (Zseq 0 (Z.to_nat (width + 1)))
           ++ map (horizontal_line width) (Zseq 0 (Z.to_nat (height + 1))))].
Proof.
  unfold grid_events.
  change (fun i : Z =>
            [MoveTo (i * (Canvas.CELL_SIZE + 1) + 1) 0;
             LineTo (i * (Canvas.CELL_SIZE + 1) + 1)
                    ((Canvas.CELL_SIZE + 1) * height + 1)])
    with (line_events (vertical_line height)).
  change (fun j : Z =>
            [MoveTo 0 (j * (Canvas.CELL_SIZE + 1) + 1);
             LineTo ((Canvas.CELL_SIZE + 1) * width + 1)
                    (j * (Canvas.CELL_SIZE + 1) + 1)])
    with (line_events (horizontal_line width)).
  rewrite !canvas_run_app, !canvas_run_lines.
  cbn [canvas_run fold_left canvas_step cv_painted cv_path cv_strokeStyle
       cv_width cv_height cv_fillStyle app].
  now rewrite path_segments_app_lines.
Qed.

Lemma filter_flat_map {A} (p : Event -> bool) (f : A -> list Event)
      (l : list A) :
  filter p (flat_map f l) = flat_map (fun a => filter p (f a)) l.
Proof.
  induction l as [|a l IH]; [reflexivity|].
  cbn [flat_map]. now rewrite filter_app, IH.
Qed.

Lemma flat_map_nil {A B} (l : list A) :
  flat_map (fun _ : A => @nil B) l = [].
Proof. induction l; simpl; auto. Qed.

Lemma flat_map_singleton {A B} (f : A -> B) (l : list A) :
  flat_map (fun a => [f a]) l = map f l.
Proof. induction l; simpl; congruence. Qed.

(** ** C2: the addressing rule *)

Lemma round_binary64_exact (x : Z) :
  Z.abs x < 2 ^ 53 -> round_binary64 x = Some x.
Proof.
  intros Hx. unfold round_binary64. cbv zeta.
  destruct (Z.ltb_spec (Z.abs x) (2 ^ 53)); [reflexivity | lia].
Qed.

(** Below 2^53 the source's index computation is the exact one. *)
Lemma getIndex_binary64_exact (width row col : Z) :
  Z.abs (row * width) < 2 ^ 53 ->
  Z.abs (row * width + col) < 2 ^ 53 ->
  getIndex_binary64 width row col = Some (Canvas.getIndex width row col).
Proof.
  intros Hp Hs. unfold getIndex_binary64, js_mul, js_add, Canvas.getIndex.
  rewrite (round_binary64_exact _ Hp). now apply round_binary64_exact.
Qed.

Lemma getIndex_binary64_in_grid (width height row col : Z) :
  width * height <= 2 ^ 53 ->
  0 <= row < height -> 0 <= col < width ->
  getIndex_binary64 width row col = Some (row * width + col).
Proof.
  intros Hb Hr Hc.
  pose proof (cell_index_range width height row col Hr Hc) as Hidx.
  apply getIndex_binary64_exact; nia.
Qed.

(** Past 2^53 the source rounds: on a grid 2^31 cells wide, the first two
    cells of row 2^22 get the same index. *)
Lemma getIndex_binary64_rounds_beyond_2_53 :
  getIndex_binary64 (2 ^ 31) (2 ^ 22) 0 = Some (2 ^ 53)
  /\ getIndex_binary64 (2 ^ 31) (2 ^ 22) 1 = Some (2 ^ 53)
  /\ Canvas.getIndex (2 ^ 31) (2 ^ 22) 1 = 2 ^ 53 + 1.
Proof. repeat split; vm_compute; reflexivity. Qed.

(** C2. For a grid of positive [width] and [height] with at most 2^53 cells
    (the range in which the source's binary64 arithmetic is exact; every
    grid that has a state buffer of [width * height] bytes is in it): on
    rows [0..height-1] and columns [0..width-1], [getIndex row col], as the
    source computes it, is [row * width + col], which is also the value of
    the integer model [Canvas.getIndex]; it is strictly increasing in the
    column on a fixed row; and it is a bijection from the cells of the grid
    onto the indices [0..width*height-1] (every cell lands in that range,
    two different cells get different indices, every index of the range is
    hit). *)
Theorem getIndex_row_major_bijection (width height : Z) :
  0 < width -> 0 < height -> width * height <= 2 ^ 53 ->
  (forall row col, 0 <= row < height -> 0 <= col < width ->
     getIndex_binary64 width row col = Some (row * width + col)
     /\ Canvas.getIndex width row col = row * width + col
     /\ 0 <= row * width + col < width * height)
  /\ (forall row c1 c2, 0 <= row < height ->
        0 <= c1 < width -> 0 <= c2 < width -> c1 < c2 ->
        exists i1 i2,
          getIndex_binary64 width row c1 = Some i1
          /\ getIndex_binary64 width row c2 = Some i2
          /\ i1 < i2)
  /\ (forall r1 c1 r2 c2,
        0 <= r1 < height -> 0 <= c1 < width ->
        0 <= r2 < height -> 0 <= c2 < width ->
        getIndex_binary64 width r1 c1 = getIndex_binary64 width r2 c2 ->
        r1 = r2 /\ c1 = c2)
  /\ (forall idx, 0 <= idx < width * height ->
        exists row col, 0 <= row < height /\ 0 <= col < width
                        /\ getIndex_binary64 width row col = Some idx).
Proof.
  intros Hw Hh Hb. split; [|split; [|split]].
  - intros row col Hr Hc. split; [|split].
    + now apply (getIndex_binary64_in_grid width height).
    + reflexivity.
    + apply (cell_index_range width height); assumption.
  - intros row c1 c2 Hr Hc1 Hc2 Hlt.
    exists (row * width + c1), (row * width + c2).
    rewrite !(getIndex_binary64_in_grid width height) by assumption.
    repeat split. lia.
  - intros r1 c1 r2 c2 Hr1 Hc1 Hr2 Hc2.
    rewrite !(getIndex_binary64_in_grid width height) by assumption.
    intros Heq. inversion Heq as [Hidx]. split.
    + rewrite <- (cell_index_div width r1 c1), <- (cell_index_div width r2 c2)
        by lia.
      now f_equal.
    + rewrite <- (cell_index_mod width r1 c1), <- (cell_index_mod width r2 c2)
        by lia.
      now f_equal.
  - intros idx Hidx. exists (idx / width), (idx mod width).
    pose proof (Z.mod_pos_bound idx width Hw) as Hm.
    pose proof (Z.div_mod idx width ltac:(lia)) as Hd.
    assert (0 <= idx / width < height) as Hr.
    { split; [apply Z.div_pos; lia | apply Z.div_lt_upper_bound; lia]. }
    split; [exact Hr|]. split; [exact Hm|].
    rewrite (getIndex_binary64_in_grid width height) by assumption.
    f_equal. lia.
Qed.

Lemma getIndex_row_major_bijection_witness :
  getIndex_binary64 3 1 2 = Some (1 * 3 + 2)
  /\ (exists i1 i2,
        getIndex_binary64 3 1 0 = Some i1
        /\ getIndex_binary64 3 1 2 = Some i2 /\ i1 < i2)
  /\ (exists row col, 0 <= row < 2 /\ 0 <= col < 3
                      /\ getIndex_binary64 3 row col = Some 4).
Proof.
  destruct (getIndex_row_major_bijection 3 2
              ltac:(lia) ltac:(lia) ltac:(lia))
    as (Hval & Hinc & _ & Hsurj).
  split; [apply (Hval 1 2); lia|].
  split; [apply (Hinc 1 0 2); lia|].
  apply (Hsurj 4). lia.
Defined.

(** ** C5: the grid lines *)

(** C5. From any world and for non-negative dimensions, [drawGrid] returns
    normally, touches neither the engine nor the pending callbacks, and its
    calls contain exactly one [stroke] and one stroke-style assignment (the
    grid colour).  On any canvas state that one stroke paints, in the grid
    colour, [width + 1] vertical lines followed by [height + 1] horizontal
    lines: vertical line [i] from [(i*(CELL_SIZE+1)+1, 0)] to
    [(i*(CELL_SIZE+1)+1, (CELL_SIZE+1)*height+1)], horizontal line [j] from
    [(0, j*(CELL_SIZE+1)+1)] to [((CELL_SIZE+1)*width+1, j*(CELL_SIZE+1)+1)];
    nothing else is painted. *)
Theorem drawGrid_lines {E : Type} `{SimulationEngine E}
        (width height : Z) (w : World E) :
  0 <= width -> 0 <= height ->
  exists t vlines hlines,
    Canvas.drawGrid width height w
    = (Normal tt, mkWorld (engine w) (trace w ++ t) (pending w))
    /\ filter is_stroke t = [Stroke]
    /\ filter is_strokeStyle t = [SetStrokeStyle Canvas.GRID_COLOR]
    /\ (forall c, cv_painted (canvas_run c t)
                  = cv_painted c
                    ++ [StrokedPath Canvas.GRID_COLOR (vlines ++ hlines)])
    /\ Z.of_nat (List.length vlines) = width + 1
    /\ Z.of_nat (List.length hlines) = height + 1
    /\ (forall i, 0 <= i <= width ->
          nth_error vlines (Z.to_nat i)
          = Some ((i * (Canvas.CELL_SIZE + 1) + 1, 0),
                  (i * (Canvas.CELL_SIZE + 1) + 1,
                   (Canvas.CELL_SIZE + 1) * height + 1)))
    /\ (forall j, 0 <= j <= height ->
          nth_error hlines (Z.to_nat j)
          = Some ((0, j * (Canvas.CELL_SIZE + 1) + 1),
                  ((Canvas.CELL_SIZE + 1) * width + 1,
                   j * (Canvas.CELL_SIZE + 1) + 1))).
Proof.
  intros Hw Hh.
  exists (grid_events width height),
         (map (vertical_line height) (Zseq 0 (Z.to_nat (width + 1)))),
         (map (horizontal_line width) (Zseq 0 (Z.to_nat (height + 1)))).
  split; [apply drawGrid_emit|].
  split.
  { unfold grid_events. rewrite !filter_app, !filter_flat_map.
    cbn [filter is_stroke]. now rewrite !flat_map_nil. }
  split.
  { unfold grid_events. rewrite !filter_app, !filter_flat_map.
    cbn [filter is_strokeStyle]. now rewrite !flat_map_nil. }
  split; [intros c; apply grid_events_canvas|].
  rewrite !length_map, !Zseq_length.
  repeat split; try lia.
  - intros i Hi. rewrite nth_error_map, Zseq_nth by lia.
    simpl. now rewrite Z2Nat.id by lia.
  - intros j Hj. rewrite nth_error_map, Zseq_nth by lia.
    simpl. now rewrite Z2Nat.id by lia.
Qed.

Lemma drawGrid_lines_witness :
  exists t,
    Canvas.drawGrid 3 2 (page_load toy_running)
    = (Normal tt, mkWorld toy_running t [])
    /\ filter is_stroke t = [Stroke].
Proof.
  destruct (drawGrid_lines 3 2 (page_load toy_running)
              ltac:(lia) ltac:(lia))
    as (t & vl & hl & Hrun & Hstroke & _).
  exists t. split; [exact Hrun | exact Hstroke].
Defined.

(** ** The state view *)

Lemma Uint8Array_new_Normal (buffer : list Byte.byte) (off len : Z)
      (view : Uint8Array) :
  Uint8Array_new buffer off len = Normal view ->
  view = mkUint8Array buffer off len
  /\ 0 <= off /\ 0 <= len /\ off + len <= byteLength buffer.
Proof.
  unfold Uint8Array_new.
  destruct (Z.ltb_spec off 0); [discriminate|].
  destruct (Z.ltb_spec len 0); [discriminate|]. simpl.
  destruct (Z.ltb_spec (byteLength buffer) (off + len)); [discriminate|].
  intros Heq. inversion Heq. repeat split; lia.
Qed.

Lemma Uint8Array_new_fits (buffer : list Byte.byte) (off len : Z) :
  0 <= off -> 0 <= len -> off + len <= byteLength buffer ->
  Uint8Array_new buffer off len = Normal (mkUint8Array buffer off len).
Proof.
  intros Ho Hl Hfit. unfold Uint8Array_new.
  destruct (Z.ltb_spec off 0); [lia|].
  destruct (Z.ltb_spec len 0); [lia|]. simpl.
  destruct (Z.ltb_spec (byteLength buffer) (off + len)); [lia|reflexivity].
Qed.

Lemma Uint8Array_new_Throw (buffer : list Byte.byte) (off len : Z)
      (e : JsError) :
  Uint8Array_new buffer off len = Throw e ->
  e = RangeError /\ (off < 0 \/ len < 0 \/ byteLength buffer < off + len).
Proof.
  unfold Uint8Array_new.
  destruct (Z.ltb_spec off 0); simpl.
  { intros Heq. inversion Heq. split; [reflexivity | lia]. }
  destruct (Z.ltb_spec len 0); simpl.
  { intros Heq. inversion Heq. split; [reflexivity | lia]. }
  destruct (Z.ltb_spec (byteLength buffer) (off + len)); [|discriminate].
  intros Heq. inversion Heq. split; [reflexivity | lia].
Qed.

(** Inside a view that was built, every index below its length reads a
    byte of the buffer. *)
Lemma Uint8Array_get_defined (buffer : list Byte.byte) (off len idx : Z)
      (view : Uint8Array) :
  Uint8Array_new buffer off len = Normal view ->
  0 <= idx < len ->
  exists b, nth_error buffer (Z.to_nat (off + idx)) = Some b
            /\ Uint8Array_get view idx = Some (Z.of_N (Byte.to_N b)).
Proof.
  intros Hnew Hidx.
  apply Uint8Array_new_Normal in Hnew. destruct Hnew as (-> & Ho & Hl & Hfit).
  unfold Uint8Array_get. cbn [ta_length ta_buffer ta_byteOffset].
  destruct (Z.leb_spec 0 idx); [|lia].
  destruct (Z.ltb_spec idx len); [|lia]. simpl.
  destruct (nth_error buffer (Z.to_nat (off + idx))) as [b|] eqn:Hnth.
  - exists b. split; reflexivity.
  - apply nth_error_None in Hnth. unfold byteLength in Hfit. lia.
Qed.

(** Under a view that was built over a buffer of at most 2^53 bytes (any
    buffer a host can allocate), the index of every cell of the grid is the
    same in binary64 and in the integer model. *)
Lemma getIndex_binary64_under_view (buffer : list Byte.byte)
      (off width height row col : Z) (view : Uint8Array) :
  byteLength buffer <= 2 ^ 53 ->
  Uint8Array_new buffer off (width * height) = Normal view ->
  0 <= row < height -> 0 <= col < width ->
  getIndex_binary64 width row col = Some (Canvas.getIndex width row col).
Proof.
  intros Hbuf Hnew Hr Hc.
  apply Uint8Array_new_Normal in Hnew. destruct Hnew as (_ & Ho & Hl & Hfit).
  unfold Canvas.getIndex.
  apply (getIndex_binary64_in_grid width height); [lia | assumption..].
Qed.

Lemma cells_in_memory_spec {E : Type} `{SimulationEngine E}
      (width height : Z) (e : E) :
  cells_in_memory width height e = true
  <-> 0 <= Universe_cells e /\ 0 <= width * height
      /\ Universe_cells e + width * height <= byteLength (memory_buffer e).
Proof.
  unfold cells_in_memory. rewrite !andb_true_iff, !Z.leb_le. tauto.
Qed.

Lemma cells_in_memory_new {E : Type} `{SimulationEngine E}
      (width height : Z) (e : E) :
  cells_in_memory width height e = true ->
  Uint8Array_new (memory_buffer e) (Universe_cells e) (width * height)
  = Normal (mkUint8Array (memory_buffer e) (Universe_cells e)
                         (width * height)).
Proof.
  intros Hin. apply cells_in_memory_spec in Hin.
  apply Uint8Array_new_fits; tauto.
Qed.

Lemma cells_in_memory_false {E : Type} `{SimulationEngine E}
      (width height : Z) (e : E) :
  cells_in_memory width height e = false ->
  Uint8Array_new (memory_buffer e) (Universe_cells e) (width * height)
  = Throw RangeError.
Proof.
  intros Hout.
  destruct (Uint8Array_new (memory_buffer e) (Universe_cells e)
                           (width * height)) as [view|err] eqn:Hnew.
  - apply Uint8Array_new_Normal in Hnew.
    destruct Hnew as (_ & Ho & Hl & Hfit).
    assert (cells_in_memory width height e = true) as Hin
        by (apply cells_in_memory_spec; tauto).
    congruence.
  - apply Uint8Array_new_Throw in Hnew. now destruct Hnew as [-> _].
Qed.

(** What the cell events leave on the canvas: one rectangle per cell, in
    the colour of the byte read for it; the path and the stroke style are
    not touched. *)
Lemma canvas_run_cells (width : Z) (cells : Uint8Array) (l : list (Z * Z)) :
  forall c,
    let c' := canvas_run c (flat_map (cell_events width cells) l) in
    cv_painted c' = cv_painted c ++ map (cell_rect width cells) l
    /\ cv_path c' = cv_path c
    /\ cv_strokeStyle c' = cv_strokeStyle c
    /\ cv_width c' = cv_width c
    /\ cv_height c' = cv_height c.
Proof.
  induction l as [|rc l IH]; intros c.
  - simpl. rewrite app_nil_r. auto.
  - cbn [flat_map]. cbv zeta. rewrite canvas_run_app.
    destruct (IH (canvas_run c (cell_events width cells rc)))
      as (Hp & Hpath & Hs & Hw & Hh).
    rewrite Hp, Hpath, Hs, Hw, Hh.
    unfold cell_events, cell_rect. simpl.
    rewrite <- app_assoc. auto.
Qed.

Lemma cells_events_canvas (width height : Z) (cells : Uint8Array)
      (c : CanvasState) :
  cv_painted (canvas_run c (cells_events width height cells))
  = cv_painted c
    ++ map (cell_rect width cells) (row_major width height)
    ++ [StrokedPath (cv_strokeStyle c) []].
Proof.
  unfold cells_events. rewrite !canvas_run_app.
  set (c1 := canvas_run c [BeginPath]).
  destruct (canvas_run_cells width cells (row_major width height) c1)
    as (Hp & Hpath & Hs & _).
  cbn [canvas_run fold_left canvas_step cv_painted] in *.
  fold (canvas_run c1 (flat_map (cell_events width cells)
                                (row_major width height))).
  rewrite Hp, Hpath, Hs. subst c1. simpl.
  now rewrite <- app_assoc.
Qed.

(** ** C3: every cell, once, row by row *)

(** C3. On a grid of positive dimensions whose state view can be built,
    [drawCells] returns normally, leaves the engine and the pending callbacks
    alone, and its calls are [beginPath], then for each cell of the grid a
    read of the view at [row * width + col], a fill-style assignment and one
    [fillRect] of [CELL_SIZE] by [CELL_SIZE] at
    [(col*(CELL_SIZE+1)+1, row*(CELL_SIZE+1)+1)], then [stroke].  The cells
    come in row-major order: the [k]-th cell visited is
    [(k / width, k mod width)], for [k] from [0] to [width*height - 1]; the
    list of visited cells has no repetition and contains exactly the cells
    with [0 <= row < height] and [0 <= col < width].  On the canvas this
    paints exactly one rectangle per cell, in that order. *)
Theorem drawCells_visits_each_cell_once {E : Type} `{SimulationEngine E}
        (width height : Z) (cells : Uint8Array) (w : World E) :
  0 < width -> 0 < height ->
  Uint8Array_new (memory_buffer (engine w)) (Universe_cells (engine w))
                 (width * height) = Normal cells ->
  exists visited,
    Canvas.drawCells width height w
    = (Normal tt,
       mkWorld (engine w)
         (trace w
          ++ [BeginPath]
          ++ flat_map (fun rc =>
               [ReadCell (fst rc * width + snd rc)
                         (Uint8Array_get cells (fst rc * width + snd rc));
                SetFillStyle
                  (Canvas.cellColor
                     (Uint8Array_get cells (fst rc * width + snd rc)));
                FillRect (snd rc * (Canvas.CELL_SIZE + 1) + 1)
                         (fst rc * (Canvas.CELL_SIZE + 1) + 1)
                         Canvas.CELL_SIZE Canvas.CELL_SIZE]) visited
          ++ [Stroke])
         (pending w))
    /\ List.length visited = Z.to_nat (width * height)
    /\ (forall k, 0 <= k < width * height ->
          nth_error visited (Z.to_nat k) = Some (k / width, k mod width))
    /\ NoDup visited
    /\ (forall row col,
          In (row, col) visited <-> 0 <= row < height /\ 0 <= col < width)
    /\ (forall c,
          cv_painted (canvas_run c (trace (snd (Canvas.drawCells width height w))))
          = cv_painted (canvas_run c (trace w))
            ++ map (fun rc =>
                 FilledRect
                   (Canvas.cellColor
                      (Uint8Array_get cells (fst rc * width + snd rc)))
                   (snd rc * (Canvas.CELL_SIZE + 1) + 1)
                   (fst rc * (Canvas.CELL_SIZE + 1) + 1)
                   Canvas.CELL_SIZE Canvas.CELL_SIZE) visited
            ++ [StrokedPath (cv_strokeStyle (canvas_run c (trace w))) []]).
Proof.
  intros Hw Hh Hnew. exists (row_major width height).
  pose proof (drawCells_emit width height cells w Hw ltac:(lia) Hnew) as Hrun.
  split; [exact Hrun|].
  split; [apply row_major_length|].
  split; [apply row_major_nth|].
  split; [apply row_major_NoDup; assumption|].
  split; [intros; apply row_major_In; lia|].
  intros c. rewrite Hrun. cbn [snd emit trace].
  rewrite canvas_run_app. apply cells_events_canvas.
Qed.

Lemma drawCells_visits_each_cell_once_witness :
  exists visited,
    fst (Canvas.drawCells 3 2 (page_load toy_running)) = Normal tt
    /\ nth_error visited 4 = Some (1, 1).
Proof.
  destruct (drawCells_visits_each_cell_once (H := toy_engine) 3 2
              (mkUint8Array toy_cells 1 6) (page_load toy_running)
              ltac:(lia) ltac:(lia) eq_refl)
    as (visited & Hrun & _ & Hnth & _).
  exists visited. split.
  - now rewrite Hrun.
  - apply (Hnth 4). lia.
Defined.

(** ** C4: the colour of a cell *)

Lemma cellColor_dead (v : option Z) :
  Canvas.cellColor v = Canvas.DEAD_COLOR <-> v = Some Cell_Dead.
Proof.
  unfold Canvas.cellColor, strict_eq, Cell_Dead. destruct v as [b|].
  - destruct (Z.eqb_spec b 0) as [->|Hb]; split; intros Hc;
      try reflexivity; try discriminate.
    congruence.
  - split; discriminate.
Qed.

Lemma cellColor_alive (b : Z) :
  b <> Cell_Dead -> Canvas.cellColor (Some b) = Canvas.ALIVE_COLOR.
Proof.
  unfold Canvas.cellColor, strict_eq, Cell_Dead. intros Hb.
  destruct (Z.eqb_spec b 0); [contradiction | reflexivity].
Qed.

Lemma cells_events_fillStyle (width height : Z) (cells : Uint8Array) :
  filter is_fillStyle (cells_events width height cells)
  = map (fun rc =>
           SetFillStyle
             (Canvas.cellColor
                (Uint8Array_get cells (fst rc * width + snd rc))))
        (row_major width height).
Proof.
  unfold cells_events. rewrite !filter_app, filter_flat_map.
  cbn [filter is_fillStyle app]. rewrite app_nil_r.
  apply flat_map_singleton.
Qed.

Lemma cells_events_read (width height : Z) (cells : Uint8Array) :
  filter is_read (cells_events width height cells)
  = map (fun rc =>
           ReadCell (fst rc * width + snd rc)
                    (Uint8Array_get cells (fst rc * width + snd rc)))
        (row_major width height).
Proof.
  unfold cells_events. rewrite !filter_app, filter_flat_map.
  cbn [filter is_read app]. rewrite app_nil_r.
  apply flat_map_singleton.
Qed.

Lemma row_major_index (width k : Z) :
  0 < width -> k / width * width + k mod width = k.
Proof. intros Hw. pose proof (Z.div_mod k width). lia. Qed.

(** The [k]-th fill style [drawCells] assigns is the colour of the byte at
    index [k] of the view. *)
Lemma drawCells_fillStyle_nth {E : Type} `{SimulationEngine E}
      (width height k : Z) (cells : Uint8Array) (w : World E) :
  0 < width -> 0 < height ->
  Uint8Array_new (memory_buffer (engine w)) (Universe_cells (engine w))
                 (width * height) = Normal cells ->
  0 <= k < width * height ->
  exists t,
    Canvas.drawCells width height w
    = (Normal tt, mkWorld (engine w) (trace w ++ t) (pending w))
    /\ nth_error (filter is_fillStyle t) (Z.to_nat k)
       = Some (SetFillStyle (Canvas.cellColor (Uint8Array_get cells k))).
Proof.
  intros Hw Hh Hnew Hk. exists (cells_events width height cells).
  split; [apply drawCells_emit; assumption || lia|].
  rewrite cells_events_fillStyle, nth_error_map, row_major_nth by assumption.
  cbn [option_map fst snd]. now rewrite row_major_index.
Qed.

(** C4. The colour expression of [drawCells] is a function of the value
    read and of nothing else: it is the dead colour exactly when the value
    is the byte [Cell.Dead] (0), and the alive colour for every other byte.
    Accordingly, for two runs of [drawCells] from any two worlds (whatever
    their traces, pending callbacks and engine states) on a grid of positive
    dimensions, a cell whose byte is the same in both views gets the same
    fill style in both runs, the colour of that byte; and [drawCells] leaves
    the engine as it found it, so drawing again with no step in between
    reads the same bytes. *)
Theorem fill_color_pure {E : Type} `{SimulationEngine E}
        (width height k : Z) (cells1 cells2 : Uint8Array) (w1 w2 : World E) :
  0 < width -> 0 < height ->
  Uint8Array_new (memory_buffer (engine w1)) (Universe_cells (engine w1))
                 (width * height) = Normal cells1 ->
  Uint8Array_new (memory_buffer (engine w2)) (Universe_cells (engine w2))
                 (width * height) = Normal cells2 ->
  0 <= k < width * height ->
  Uint8Array_get cells1 k = Uint8Array_get cells2 k ->
  (exists t1 t2,
      Canvas.drawCells width height w1
      = (Normal tt, mkWorld (engine w1) (trace w1 ++ t1) (pending w1))
      /\ Canvas.drawCells width height w2
         = (Normal tt, mkWorld (engine w2) (trace w2 ++ t2) (pending w2))
      /\ nth_error (filter is_fillStyle t1) (Z.to_nat k)
         = Some (SetFillStyle (Canvas.cellColor (Uint8Array_get cells1 k)))
      /\ nth_error (filter is_fillStyle t2) (Z.to_nat k)
         = nth_error (filter is_fillStyle t1) (Z.to_nat k))
  /\ (forall v, Canvas.cellColor v = Canvas.DEAD_COLOR <-> v = Some Cell_Dead)
  /\ (forall b, b <> Cell_Dead ->
                Canvas.cellColor (Some b) = Canvas.ALIVE_COLOR)
  /\ Cell_Dead = 0
  /\ Canvas.DEAD_COLOR <> Canvas.ALIVE_COLOR.
Proof.
  intros Hw Hh Hnew1 Hnew2 Hk Hsame.
  destruct (drawCells_fillStyle_nth width height k cells1 w1 Hw Hh Hnew1 Hk)
    as (t1 & Hrun1 & Hnth1).
  destruct (drawCells_fillStyle_nth width height k cells2 w2 Hw Hh Hnew2 Hk)
    as (t2 & Hrun2 & Hnth2).
  split.
  { exists t1, t2. repeat split; try assumption.
    now rewrite Hnth1, Hnth2, Hsame. }
  split; [apply cellColor_dead|].
  split; [apply cellColor_alive|].
  split; [reflexivity | discriminate].
Qed.

Lemma fill_color_pure_witness :
  exists t1 t2,
    Canvas.drawCells 3 2 (page_load toy_running)
    = (Normal tt, mkWorld toy_running ([] ++ t1) [])
    /\ Canvas.drawCells 3 2
         (mkWorld toy_running [UniverseTick] [PreRenderLoop])
       = (Normal tt,
          mkWorld toy_running ([UniverseTick] ++ t2) [PreRenderLoop])
    /\ nth_error (filter is_fillStyle t1) 1
       = Some (SetFillStyle Canvas.ALIVE_COLOR)
    /\ nth_error (filter is_fillStyle t2) 1
       = nth_error (filter is_fillStyle t1) 1.
Proof.
  apply (fill_color_pure (H := toy_engine) 3 2 1
           (mkUint8Array toy_cells 1 6) (mkUint8Array toy_cells 1 6)
           (page_load toy_running)
           (mkWorld toy_running [UniverseTick] [PreRenderLoop])
           ltac:(lia) ltac:(lia) eq_refl eq_refl ltac:(lia) eq_refl).
Defined.

(** ** C10: reads stay inside the view *)

(** C10. Whatever the dimensions and the world, every read of the state
    view that [drawCells] performs uses an index in [0, width*height) and
    yields a byte of the engine's buffer (the byte at [cells() + index]),
    never [undefined]. *)
Theorem drawCells_reads_in_bounds {E : Type} `{SimulationEngine E}
        (width height : Z) (w : World E) :
  exists t,
    trace (snd (Canvas.drawCells width height w)) = trace w ++ t
    /\ forall idx v,
         In (ReadCell idx v) t ->
         0 <= idx < width * height
         /\ exists b,
              nth_error (memory_buffer (engine w))
                        (Z.to_nat (Universe_cells (engine w) + idx)) = Some b
              /\ v = Some (Z.of_N (Byte.to_N b)).
Proof.
  destruct (Uint8Array_new (memory_buffer (engine w))
                           (Universe_cells (engine w)) (width * height))
    as [cells|err] eqn:Hnew.
  - rewrite (drawCells_emit_nested _ _ _ _ Hnew). cbn [snd emit trace].
    eexists. split; [reflexivity|].
    intros idx v Hin.
    apply in_app_or in Hin. destruct Hin as [Hin|Hin].
    { destruct Hin as [Hin|[]]. discriminate. }
    apply in_app_or in Hin. destruct Hin as [Hin|Hin].
    2:{ destruct Hin as [Hin|[]]. discriminate. }
    apply in_flat_map in Hin. destruct Hin as (row & Hrow & Hin).
    apply in_flat_map in Hin. destruct Hin as (col & Hcol & Hin).
    apply Zseq_In in Hrow, Hcol.
    unfold cell_events in Hin. cbn [fst snd In] in Hin.
    destruct Hin as [Hin|[Hin|[Hin|[]]]]; try discriminate.
    inversion Hin; subst idx v. clear Hin.
    assert (0 <= row * width + col < width * height) as Hrange
        by (apply cell_index_range; lia).
    split; [exact Hrange|].
    apply (Uint8Array_get_defined _ _ _ _ _ Hnew Hrange).
  - rewrite (drawCells_throw _ _ _ _ Hnew). exists []. split.
    + simpl. now rewrite app_nil_r.
    + intros idx v [].
Qed.

(** ** One frame *)

Lemma filter_flat_map_nil {A} (p : Event -> bool) (f : A -> list Event)
      (l : list A) :
  (forall a, filter p (f a) = []) -> filter p (flat_map f l) = [].
Proof.
  intros Hf. rewrite filter_flat_map.
  rewrite (flat_map_ext _ (fun _ => [])) by exact Hf.
  apply flat_map_nil.
Qed.

Section Frames.
Context {E : Type} `{SimulationEngine E}.

(** The frame body of the canvas driver when the view can be built. *)
Lemma renderLoop_normal (width height : Z) (cells : Uint8Array)
      (w : World E) :
  Uint8Array_new (memory_buffer (Universe_tick (engine w)))
                 (Universe_cells (Universe_tick (engine w)))
                 (width * height) = Normal cells ->
  Canvas.renderLoop width height w
  = (Normal tt,
     mkWorld (Universe_tick (engine w))
       (trace w
        ++ [SetTextContent (Universe_render (engine w)); UniverseTick]
        ++ grid_events width height
        ++ nested_cells_events width height cells
        ++ [RequestAnimationFrame (CanvasRenderLoop width height)])
       (pending w ++ [CanvasRenderLoop width height])).
Proof.
  intros Hnew. unfold Canvas.renderLoop.
  unfold bind at 1. unfold gets at 1.
  unfold bind at 1. unfold log at 1.
  unfold bind at 1. unfold modify_engine at 1.
  unfold bind at 1. unfold log at 1.
  cbn [engine trace pending].
  unfold bind at 1. rewrite drawGrid_emit. unfold emit at 1.
  cbn [engine trace pending].
  unfold bind at 1.
  rewrite (drawCells_emit_nested width height cells) by exact Hnew.
  unfold emit, requestAnimationFrame. cbn [engine trace pending].
  unfold nested_cells_events.
  repeat rewrite <- app_assoc. reflexivity.
Qed.

(** The frame body when the view cannot be built: the error leaves the
    frame before the next one is requested. *)
Lemma renderLoop_throw (width height : Z) (err : JsError) (w : World E) :
  Uint8Array_new (memory_buffer (Universe_tick (engine w)))
                 (Universe_cells (Universe_tick (engine w)))
                 (width * height) = Throw err ->
  Canvas.renderLoop width height w
  = (Throw err,
     mkWorld (Universe_tick (engine w))
       (trace w
        ++ [SetTextContent (Universe_render (engine w)); UniverseTick]
        ++ grid_events width height)
       (pending w)).
Proof.
  intros Hnew. unfold Canvas.renderLoop.
  unfold bind at 1. unfold gets at 1.
  unfold bind at 1. unfold log at 1.
  unfold bind at 1. unfold modify_engine at 1.
  unfold bind at 1. unfold log at 1.
  cbn [engine trace pending].
  unfold bind at 1. rewrite drawGrid_emit. unfold emit at 1.
  cbn [engine trace pending].
  unfold bind at 1.
  rewrite (drawCells_throw width height err) by exact Hnew.
  repeat rewrite <- app_assoc. reflexivity.
Qed.

Lemma Pre_renderLoop_run (w : World E) :
  Pre.renderLoop w
  = (Normal tt,
     mkWorld (Universe_tick (engine w))
       (trace w
        ++ [SetTextContent (Universe_render (engine w)); UniverseTick;
            RequestAnimationFrame PreRenderLoop])
       (pending w ++ [PreRenderLoop])).
Proof.
  unfold Pre.renderLoop, bind, gets, log, modify_engine,
    requestAnimationFrame.
  cbn [engine trace pending]. repeat rewrite <- app_assoc. reflexivity.
Qed.






(** With nothing pending the host runs nothing, however long it waits. *)
Lemma host_frames_idle (n : nat) (w : World E) :
  pending w = [] -> host_frames n w = w.
Proof.
  intros Hp. induction n as [|n IH]; [reflexivity|].
  cbn [host_frames]. unfold host_frame. rewrite Hp. cbn [run_callbacks].
  destruct w as [e t p]. cbn in Hp. subst p. exact IH.
Qed.

(** Startup of the canvas driver when the module loads and the universe
    is created. *)
Lemma run_started (e0 e1 e2 : E) :
  init e0 = inr e1 -> Universe_new e1 = Normal e2 ->
  Canvas.run (page_load e0)
  = (Normal tt,
     mkWorld e2
       [SetCanvasHeight ((Canvas.CELL_SIZE + 1) * Universe_height e2 + 1);
        SetCanvasWidth ((Canvas.CELL_SIZE + 1) * Universe_width e2 + 1);
        RequestAnimationFrame
          (CanvasRenderLoop (Universe_width e2) (Universe_height e2))]
       [CanvasRenderLoop (Universe_width e2) (Universe_height e2)]).
Proof.
  intros Hinit Hnew. unfold Canvas.run, page_load.
  unfold bind at 1. unfold await_init_catch at 1.
  cbn [engine trace pending]. rewrite Hinit.
  unfold bind at 1. unfold ret at 1.
  unfold bind at 1. unfold Universe_new_call at 1.
  cbn [engine trace pending]. rewrite Hnew.
  reflexivity.
Qed.

End Frames.

(** ** C6: the frame body and its rescheduling *)

Lemma grid_events_no_tick (width height : Z) :
  filter is_tick (grid_events width height) = [].
Proof.
  unfold grid_events. rewrite !filter_app.
  rewrite !filter_flat_map_nil by reflexivity. reflexivity.
Qed.

Lemma nested_cells_events_no_tick (width height : Z) (cells : Uint8Array) :
  filter is_tick (nested_cells_events width height cells) = [].
Proof.
  unfold nested_cells_events. rewrite !filter_app.
  rewrite filter_flat_map_nil; [reflexivity|].
  intros row. apply filter_flat_map_nil. reflexivity.
Qed.

(** While the engine keeps its cells inside its memory, each refresh runs
    the one pending frame, which steps the engine once and leaves itself
    pending again. *)
Lemma host_frames_running {E : Type} `{SimulationEngine E}
      (width height : Z) (n : nat) :
  forall w : World E,
    pending w = [CanvasRenderLoop width height] ->
    (forall k, cells_in_memory width height
                 (Nat.iter (S k) Universe_tick (engine w)) = true) ->
    pending (host_frames n w) = [CanvasRenderLoop width height]
    /\ engine (host_frames n w) = Nat.iter n Universe_tick (engine w)
    /\ filter is_tick (trace (host_frames n w))
       = filter is_tick (trace w) ++ repeat UniverseTick n.
Proof.
  induction n as [|n IH]; intros w Hp Hmem.
  - cbn [host_frames Nat.iter repeat]. now rewrite app_nil_r.
  - cbn [host_frames]. unfold host_frame. rewrite Hp.
    cbn [run_callbacks run_callback].
    pose proof (cells_in_memory_new _ _ _ (Hmem O)) as Hnew.
    cbn [Nat.iter] in Hnew.
    rewrite (renderLoop_normal width height _
               (mkWorld (engine w) (trace w) []) Hnew).
    cbn [snd engine trace pending app].
    match goal with
    | |- context [host_frames n ?w1] =>
        destruct (IH w1) as (Hp' & He' & Ht')
    end.
    + reflexivity.
    + intros k. cbn [engine]. rewrite <- Nat.iter_succ_r. apply Hmem.
    + cbn [engine trace] in He', Ht'.
      split; [exact Hp'|]. split.
      * rewrite He'. symmetry. apply Nat.iter_succ_r.
      * rewrite Ht'. rewrite filter_app. cbn [filter is_tick].
        rewrite !filter_app, grid_events_no_tick,
          nested_cells_events_no_tick.
        cbn [filter is_tick app]. rewrite <- app_assoc. reflexivity.
Qed.

(** C6. Take a world in which the canvas frame callback is the one pending
    callback, and an engine that keeps its cells inside its memory at every
    generation.  Then after any number [n] of display refreshes the callback
    is pending again (the loop has no terminal state), the engine has been
    stepped [n] times, and the next frame body runs to completion doing, in
    this order: the text snapshot of the engine state before the step, the
    engine step, the calls of [drawGrid], the calls of [drawCells] on the
    stepped engine, the request for the next frame.  The text-only driver's
    frame body is the same sequence without the two drawing steps. *)
Theorem renderLoop_order_and_reschedule {E : Type} `{SimulationEngine E}
        (width height : Z) (w : World E) (n : nat) :
  pending w = [CanvasRenderLoop width height] ->
  (forall k, cells_in_memory width height
               (Nat.iter (S k) Universe_tick (engine w)) = true) ->
  pending (host_frames n w) = [CanvasRenderLoop width height]
  /\ engine (host_frames n w) = Nat.iter n Universe_tick (engine w)
  /\ filter is_tick (trace (host_frames n w))
     = filter is_tick (trace w) ++ repeat UniverseTick n
  /\ (exists tgrid tcells,
        (forall w' : World E,
            Canvas.drawGrid width height w'
            = (Normal tt, mkWorld (engine w') (trace w' ++ tgrid) (pending w')))
        /\ (forall w' : World E,
              engine w' = Universe_tick (engine (host_frames n w)) ->
              Canvas.drawCells width height w'
              = (Normal tt,
                 mkWorld (engine w') (trace w' ++ tcells) (pending w')))
        /\ Canvas.renderLoop width height (host_frames n w)
           = (Normal tt,
              mkWorld (Universe_tick (engine (host_frames n w)))
                (trace (host_frames n w)
                 ++ [SetTextContent
                       (Universe_render (engine (host_frames n w)));
                     UniverseTick]
                 ++ tgrid ++ tcells
                 ++ [RequestAnimationFrame (CanvasRenderLoop width height)])
                (pending (host_frames n w)
                 ++ [CanvasRenderLoop width height])))
  /\ (forall w' : World E,
        Pre.renderLoop w'
        = (Normal tt,
           mkWorld (Universe_tick (engine w'))
             (trace w'
              ++ [SetTextContent (Universe_render (engine w'));
                  UniverseTick;
                  RequestAnimationFrame PreRenderLoop])
             (pending w' ++ [PreRenderLoop]))).
Proof.
  intros Hp Hmem.
  destruct (host_frames_running width height n w Hp Hmem) as (Hpn & Hen & Htn).
  split; [exact Hpn|]. split; [exact Hen|]. split; [exact Htn|].
  split; [|apply Pre_renderLoop_run].
  assert (Uint8Array_new
            (memory_buffer (Universe_tick (engine (host_frames n w))))
            (Universe_cells (Universe_tick (engine (host_frames n w))))
            (width * height)
          = Normal (mkUint8Array
                      (memory_buffer (Universe_tick (engine (host_frames n w))))
                      (Universe_cells (Universe_tick (engine (host_frames n w))))
                      (width * height))) as Hnew.
  { apply cells_in_memory_new. rewrite Hen. apply (Hmem n). }
  eexists (grid_events width height), (nested_cells_events width height _).
  split; [intros w'; apply drawGrid_emit|].
  split.
  - intros w' Hw'. apply drawCells_emit_nested. rewrite Hw'. exact Hnew.
  - apply renderLoop_normal. exact Hnew.
Qed.

Lemma toy_cells_in_memory (k : nat) :
  cells_in_memory 3 2 (Nat.iter k Universe_tick toy_running) = true.
Proof.
  assert (List.length (toy_memory (Nat.iter k Universe_tick toy_running)) = 8%nat)
    as Hlen.
  { induction k as [|k IH]; [reflexivity|].
    simpl. simpl in IH. now rewrite length_map. }
  unfold cells_in_memory, byteLength. simpl. simpl in Hlen.
  now rewrite Hlen.
Qed.

Lemma renderLoop_order_and_reschedule_witness :
  pending (host_frames 3 (mkWorld toy_running [] [CanvasRenderLoop 3 2]))
  = [CanvasRenderLoop 3 2]
  /\ engine (host_frames 3 (mkWorld toy_running [] [CanvasRenderLoop 3 2]))
     = Nat.iter 3 Universe_tick toy_running.
Proof.
  destruct (renderLoop_order_and_reschedule (H := toy_engine) 3 2
              (mkWorld toy_running [] [CanvasRenderLoop 3 2]) 3
              eq_refl (fun k => toy_cells_in_memory (S k)))
    as (Hp & He & _).
  split; [exact Hp | exact He].
Defined.

(** ** C7: the size of the drawing surface *)

Lemma canvas_run_no_resize (t : list Event) :
  forall c,
    filter is_resize t = [] ->
    cv_width (canvas_run c t) = cv_width c
    /\ cv_height (canvas_run c t) = cv_height c.
Proof.
  induction t as [|ev t IH]; intros c Hno; [split; reflexivity|].
  destruct ev; cbn [filter is_resize] in Hno; try discriminate;
    exact (IH _ Hno).
Qed.



(** ** C9: a module that fails to load *)

(** C9. When [init] rejects, the canvas driver passes the error to
    [console.error], throws at the next statement and requests no frame:
    the trace holds the logged error and nothing else, nothing is pending,
    and no refresh ever changes the world.  The text-only driver logs the
    error in the same way and goes on to [Universe.new()]; when that call
    throws on the module that was not instantiated, it too ends with the
    logged error alone, nothing pending and no frame ever run. *)
Theorem init_failure_aborts_startup {E : Type} `{SimulationEngine E}
        (e0 : E) (err : JsError) :
  init e0 = inl err ->
  (Canvas.run (page_load e0)
   = (Throw TypeError, mkWorld e0 [ConsoleError err] [])
   /\ forall n, host_frames n (snd (Canvas.run (page_load e0)))
                = mkWorld e0 [ConsoleError err] [])
  /\ (forall err',
        Universe_new e0 = Throw err' ->
        Pre.run (page_load e0)
        = (Throw err', mkWorld e0 [ConsoleError err] [])
        /\ forall n, host_frames n (snd (Pre.run (page_load e0)))
                     = mkWorld e0 [ConsoleError err] []).
Proof.
  intros Hinit.
  assert (Canvas.run (page_load e0)
          = (Throw TypeError, mkWorld e0 [ConsoleError err] [])) as Hrun.
  { unfold Canvas.run, page_load, bind, await_init_catch.
    cbn [engine trace pending]. now rewrite Hinit. }
  split.
  - split; [exact Hrun|]. intros n. rewrite Hrun. cbn [snd].
    now apply host_frames_idle.
  - intros err' Hnew.
    assert (Pre.run (page_load e0)
            = (Throw err', mkWorld e0 [ConsoleError err] [])) as Hpre.
    { unfold Pre.run, page_load, bind, await_init_catch,
        Universe_new_call.
      cbn [engine trace pending]. rewrite Hinit.
      cbn [engine trace pending]. now rewrite Hnew. }
    split; [exact Hpre|]. intros n. rewrite Hpre. cbn [snd].
    now apply host_frames_idle.
Qed.

Lemma init_failure_aborts_startup_witness :
  Canvas.run (page_load (toy_unloaded false))
  = (Throw TypeError,
     mkWorld (toy_unloaded false)
             [ConsoleError (HostError "module failed to load")] [])
  /\ Pre.run (page_load (toy_unloaded false))
     = (Throw TypeError,
        mkWorld (toy_unloaded false)
                [ConsoleError (HostError "module failed to load")] []).
Proof.
  destruct (init_failure_aborts_startup (H := toy_engine)
              (toy_unloaded false) (HostError "module failed to load")
              eq_refl)
    as ((Hcanvas & _) & Hpre).
  split; [exact Hcanvas|].
  exact (proj1 (Hpre TypeError eq_refl)).
Defined.

(** ** C1: building the state view *)

Lemma Uint8Array_get_beyond (view : Uint8Array) (idx : Z) :
  ta_length view <= idx -> Uint8Array_get view idx = None.
Proof.
  intros Hidx. unfold Uint8Array_get.
  destruct (Z.ltb_spec idx (ta_length view)); [lia|].
  now rewrite andb_false_r.
Qed.

(** C1 as worded does not hold: a length that differs from
    [width * height] but fits in the buffer is accepted.  With an
    8 by 8 grid in a 64-byte buffer, a view of length 50 is built without
    error, and reading it at index 50 gives [undefined]. *)
Lemma StateView_mismatched_length_accepted :
  50 <> 8 * 8
  /\ Uint8Array_new (repeat Byte.x00 64) 0 50
     = Normal (mkUint8Array (repeat Byte.x00 64) 0 50)
  /\ ta_length (mkUint8Array (repeat Byte.x00 64) 0 50) = 50
  /\ Uint8Array_get (mkUint8Array (repeat Byte.x00 64) 0 50) 50 = None
  /\ ~ (forall buffer off len,
          len <> 8 * 8 ->
          exists e, Uint8Array_new buffer off len = Throw e).
Proof.
  split; [lia|]. split; [reflexivity|]. split; [reflexivity|].
  split; [reflexivity|].
  intros Hfail.
  destruct (Hfail (repeat Byte.x00 64) 0 50 ltac:(lia)) as [e He].
  discriminate He.
Qed.

(** C1 (amended). [drawCells] always asks for a view of length
    [width * height] at offset [cells()] of the engine's buffer.  When those
    bytes lie inside the buffer the view is built, its length is
    [width * height], every index below that reads the buffer byte at
    [cells() + index], and [drawCells] completes.  Otherwise the constructor
    throws a [RangeError], and [drawCells] stops with it before drawing
    anything.  The constructor compares the requested length with the
    buffer only: any non-negative length that fits is accepted and becomes
    the length of the view, and reads at or beyond it give [undefined]. *)
Theorem StateView_construction {E : Type} `{SimulationEngine E}
        (width height : Z) (w : World E) :
  (cells_in_memory width height (engine w) = true ->
   exists view,
     Uint8Array_new (memory_buffer (engine w)) (Universe_cells (engine w))
                    (width * height) = Normal view
     /\ ta_length view = width * height
     /\ (forall idx, 0 <= idx < width * height ->
           exists b,
             nth_error (memory_buffer (engine w))
                       (Z.to_nat (Universe_cells (engine w) + idx)) = Some b
             /\ Uint8Array_get view idx = Some (Z.of_N (Byte.to_N b)))
     /\ fst (Canvas.drawCells width height w) = Normal tt)
  /\ (cells_in_memory width height (engine w) = false ->
      Uint8Array_new (memory_buffer (engine w)) (Universe_cells (engine w))
                     (width * height) = Throw RangeError
      /\ Canvas.drawCells width height w = (Throw RangeError, w))
  /\ (forall buffer off len,
        0 <= off -> 0 <= len -> off + len <= byteLength buffer ->
        exists view,
          Uint8Array_new buffer off len = Normal view
          /\ ta_length view = len
          /\ forall idx, len <= idx -> Uint8Array_get view idx = None).
Proof.
  split; [|split].
  - intros Hin. pose proof (cells_in_memory_new _ _ _ Hin) as Hnew.
    eexists. split; [exact Hnew|]. split; [reflexivity|]. split.
    + intros idx Hidx. apply (Uint8Array_get_defined _ _ _ _ _ Hnew Hidx).
    + now rewrite (drawCells_emit_nested _ _ _ _ Hnew).
  - intros Hout. pose proof (cells_in_memory_false _ _ _ Hout) as Hnew.
    split; [exact Hnew|]. now apply drawCells_throw.
  - intros buffer off len Ho Hl Hfit.
    exists (mkUint8Array buffer off len).
    split; [now apply Uint8Array_new_fits|]. split; [reflexivity|].
    intros idx Hidx. now apply Uint8Array_get_beyond.
Qed.

Lemma StateView_construction_witness :
  (exists view,
      Uint8Array_new toy_cells 1 (3 * 2) = Normal view
      /\ ta_length view = 3 * 2)
  /\ Canvas.drawCells 3 2 (page_load (toy_unloaded true))
     = (Throw RangeError, page_load (toy_unloaded true)).
Proof.
  destruct (StateView_construction (H := toy_engine) 3 2
              (page_load toy_running)) as (Hin & _ & _).
  destruct (StateView_construction (H := toy_engine) 3 2
              (page_load (toy_unloaded true))) as (_ & Hout & _).
  split.
  - destruct (Hin eq_refl) as (view & Hnew & Hlen & _).
    exists view. split; [exact Hnew | exact Hlen].
  - exact (proj2 (Hout eq_refl)).
Defined.

(** ** C8: rebuilding the view *)

Lemma grid_events_no_read (width height : Z) :
  filter is_read (grid_events width height) = [].
Proof.
  unfold grid_events. rewrite !filter_app.
  rewrite !filter_flat_map_nil by reflexivity. reflexivity.
Qed.

(** [drawCells] changes the trace only: it appends events that depend on
    the engine state and the dimensions alone. *)
Lemma drawCells_appends {E : Type} `{SimulationEngine E}
      (width height : Z) (w : World E) :
  exists r t,
    (forall w' : World E,
        engine w' = engine w ->
        Canvas.drawCells width height w'
        = (r, mkWorld (engine w') (trace w' ++ t) (pending w'))).
Proof.
  destruct (Uint8Array_new (memory_buffer (engine w))
                           (Universe_cells (engine w)) (width * height))
    as [cells|err] eqn:Hnew.
  - exists (Normal tt), (nested_cells_events width height cells).
    intros w' Hw'. apply drawCells_emit_nested. now rewrite Hw'.
  - exists (Throw err), []. intros w' Hw'.
    rewrite (drawCells_throw width height err) by now rewrite Hw'.
    destruct w'. cbn [engine trace pending]. now rewrite app_nil_r.
Qed.

(** C8. [drawCells] builds its view from the engine state it is called on
    and leaves that state untouched.  So a second [drawCells] right after
    the first (no step in between) builds a view that agrees with the first
    at every index of [0, width*height), and performs the same reads with
    the same results.  And nothing is kept from one frame to the next: in a
    frame, the values read are those of the view over the engine state that
    this frame's step produced. *)
Theorem StateView_rebuild_idempotent {E : Type} `{SimulationEngine E}
        (width height : Z) (w : World E) :
  engine (snd (Canvas.drawCells width height w)) = engine w
  /\ (forall view1 view2 idx,
        Uint8Array_new (memory_buffer (engine w)) (Universe_cells (engine w))
                       (width * height) = Normal view1 ->
        Uint8Array_new
          (memory_buffer (engine (snd (Canvas.drawCells width height w))))
          (Universe_cells (engine (snd (Canvas.drawCells width height w))))
          (width * height) = Normal view2 ->
        0 <= idx < width * height ->
        Uint8Array_get view2 idx = Uint8Array_get view1 idx)
  /\ (exists t,
        trace (snd (Canvas.drawCells width height w)) = trace w ++ t
        /\ trace (snd (Canvas.drawCells width height
                         (snd (Canvas.drawCells width height w))))
           = (trace w ++ t) ++ t)
  /\ (forall cells,
        0 < width -> 0 < height ->
        Uint8Array_new (memory_buffer (Universe_tick (engine w)))
                       (Universe_cells (Universe_tick (engine w)))
                       (width * height) = Normal cells ->
        exists t,
          trace (snd (Canvas.renderLoop width height w)) = trace w ++ t
          /\ filter is_read t
             = map (fun rc =>
                      ReadCell (fst rc * width + snd rc)
                        (Uint8Array_get cells (fst rc * width + snd rc)))
                   (row_major width height)).
Proof.
  destruct (drawCells_appends width height w) as (r & t & Hrun).
  pose proof (Hrun w eq_refl) as Hrun1.
  assert (engine (snd (Canvas.drawCells width height w)) = engine w) as Heng
      by now rewrite Hrun1.
  split; [exact Heng|]. split; [|split].
  - intros view1 view2 idx Hnew1 Hnew2 _.
    rewrite Heng in Hnew2. congruence.
  - exists t. split; [now rewrite Hrun1|].
    rewrite (Hrun _ Heng). cbn [snd trace]. now rewrite Hrun1.
  - intros cells Hw Hh Hnew.
    rewrite (renderLoop_normal _ _ _ _ Hnew). cbn [snd trace].
    eexists. split; [reflexivity|].
    rewrite filter_app. cbn [filter is_read app].
    rewrite !filter_app, grid_events_no_read.
    rewrite nested_cells_events_row_major by lia.
    rewrite cells_events_read. cbn [filter is_read app].
    now rewrite app_nil_r.
Qed.

Lemma StateView_rebuild_idempotent_witness :
  exists t,
    trace (snd (Canvas.renderLoop 3 2 (page_load toy_running))) = [] ++ t
    /\ nth_error (filter is_read t) 1 = Some (ReadCell 1 (Some 0)).
Proof.
  destruct (StateView_rebuild_idempotent (H := toy_engine) 3 2
              (page_load toy_running)) as (_ & _ & _ & Hframe).
  destruct (Hframe (mkUint8Array (map toy_flip toy_cells) 1 6)
              ltac:(lia) ltac:(lia) eq_refl) as (t & Ht & Hreads).
  exists t. split; [exact Ht|]. now rewrite Hreads.
Defined.

Lemma drawCells_reads_in_bounds_witness :
  exists t,
    trace (snd (Canvas.drawCells 3 2 (page_load toy_running))) = [] ++ t
    /\ (In (ReadCell 5 (Some 0)) t -> 0 <= 5 < 3 * 2).
Proof.
  destruct (drawCells_reads_in_bounds (H := toy_engine) 3 2
              (page_load toy_running)) as (t & Ht & Hin).
  exists t. split; [exact Ht|].
  intros Hread. exact (proj1 (Hin 5 (Some 0) Hread)).
Defined.

(** * Further properties of the drivers *)

(** ** Decoding an index *)

(** X10. For a positive width and indices below 2^53 (where the source's
    arithmetic is exact): for a row that is not negative and a column of
    [0..width-1] with [row * width + col < 2^53], [getIndex row col] as the
    source computes it is an index whose quotient by the width is the row
    and whose remainder is the column; and for every index [idx] of
    [0..2^53-1], [getIndex] of the quotient and remainder of [idx] is
    [idx]. *)
Theorem getIndex_div_mod_roundtrip (width : Z) :
  0 < width ->
  (forall row col,
     0 <= row -> 0 <= col < width -> row * width + col < 2 ^ 53 ->
     exists idx,
       getIndex_binary64 width row col = Some idx
       /\ Canvas.getIndex width row col = idx
       /\ idx / width = row
       /\ idx mod width = col)
  /\ (forall idx,
        0 <= idx < 2 ^ 53 ->
        getIndex_binary64 width (idx / width) (idx mod width) = Some idx).
Proof.
  intros Hw. split.
  - intros row col Hr Hc Hb. exists (row * width + col).
    split; [|split; [|split]].
    + unfold getIndex_binary64, js_mul, js_add.
      rewrite !round_binary64_exact by nia. reflexivity.
    + reflexivity.
    + now apply cell_index_div.
    + now apply cell_index_mod.
  - intros idx Hidx.
    pose proof (Z.mod_pos_bound idx width Hw) as Hm.
    pose proof (Z.div_mod idx width ltac:(lia)) as Hd.
    assert (0 <= idx / width) as Hq by (apply Z.div_pos; lia).
    unfold getIndex_binary64, js_mul, js_add.
    rewrite !round_binary64_exact by nia.
    f_equal. lia.
Qed.

Lemma getIndex_div_mod_roundtrip_witness :
  (exists idx,
      getIndex_binary64 3 1 2 = Some idx /\ idx / 3 = 1 /\ idx mod 3 = 2)
  /\ getIndex_binary64 3 (5 / 3) (5 mod 3) = Some 5.
Proof.
  destruct (getIndex_div_mod_roundtrip 3 ltac:(lia)) as (Hdec & Henc).
  split.
  - destruct (Hdec 1 2 ltac:(lia) ltac:(lia) ltac:(lia))
      as (idx & Hidx & _ & Hq & Hr).
    exists idx. repeat split; assumption.
  - apply (Henc 5). lia.
Defined.

(** ** A frame that fails *)

(** X1. When the stepped engine's cells do not fit in its memory, the frame
    that was pending still shows the text, steps the engine and draws the
    grid, then ends with a [RangeError] before any cell is drawn and before
    the next frame is requested: nothing is pending afterwards, and no later
    refresh changes the world. *)
Theorem renderLoop_failure_stops_loop {E : Type} `{SimulationEngine E}
        (width height : Z) (w : World E) (n : nat) :
  pending w = [CanvasRenderLoop width height] ->
  cells_in_memory width height (Universe_tick (engine w)) = false ->
  exists tgrid,
    (forall w' : World E,
        Canvas.drawGrid width height w'
        = (Normal tt, mkWorld (engine w') (trace w' ++ tgrid) (pending w')))
    /\ Canvas.renderLoop width height w
       = (Throw RangeError,
          mkWorld (Universe_tick (engine w))
            (trace w
             ++ [SetTextContent (Universe_render (engine w)); UniverseTick]
             ++ tgrid)
            (pending w))
    /\ host_frames (S n) w
       = mkWorld (Universe_tick (engine w))
           (trace w
            ++ [SetTextContent (Universe_render (engine w)); UniverseTick]
            ++ tgrid)
           [].
Proof.
  intros Hp Hout. exists (grid_events width height).
  pose proof (cells_in_memory_false _ _ _ Hout) as Hnew.
  split; [intros w'; apply drawGrid_emit|].
  split; [now apply renderLoop_throw|].
  cbn [host_frames]. unfold host_frame. rewrite Hp.
  cbn [run_callbacks run_callback].
  rewrite (renderLoop_throw width height RangeError
             (mkWorld (engine w) (trace w) []) Hnew).
  cbn [snd engine trace pending]. now apply host_frames_idle.
Qed.

Lemma renderLoop_failure_stops_loop_witness :
  pending (host_frames 4 (mkWorld toy_running [] [CanvasRenderLoop 3 3])) = []
  /\ engine (host_frames 4 (mkWorld toy_running [] [CanvasRenderLoop 3 3]))
     = Universe_tick toy_running.
Proof.
  destruct (renderLoop_failure_stops_loop (H := toy_engine) 3 3
              (mkWorld toy_running [] [CanvasRenderLoop 3 3]) 3
              eq_refl eq_refl)
    as (tgrid & _ & _ & Hframes).
  rewrite Hframes. split; reflexivity.
Defined.

(** ** A universe that cannot be created *)

(** X2. When the module loads and [Universe.new()] throws, both drivers end
    startup with that error and an empty trace: nothing is written to the
    console, the canvas is not sized, no frame is requested, and no refresh
    ever runs anything. *)
Theorem Universe_new_failure_aborts_silently {E : Type} `{SimulationEngine E}
        (e0 e1 : E) (err : JsError) (n : nat) :
  init e0 = inr e1 -> Universe_new e1 = Throw err ->
  Canvas.run (page_load e0) = (Throw err, mkWorld e1 [] [])
  /\ Pre.run (page_load e0) = (Throw err, mkWorld e1 [] [])
  /\ host_frames n (mkWorld e1 [] []) = mkWorld e1 [] [].
Proof.
  intros Hinit Hnew. split; [|split].
  - unfold Canvas.run, page_load.
    unfold bind at 1. unfold await_init_catch at 1.
    cbn [engine trace pending]. rewrite Hinit.
    unfold bind at 1. unfold ret at 1.
    unfold bind at 1. unfold Universe_new_call at 1.
    cbn [engine trace pending]. now rewrite Hnew.
  - unfold Pre.run, page_load.
    unfold bind at 1. unfold await_init_catch at 1.
    cbn [engine trace pending]. rewrite Hinit.
    unfold bind at 1. unfold Universe_new_call at 1.
    cbn [engine trace pending]. now rewrite Hnew.
  - now apply host_frames_idle.
Qed.

Lemma Universe_new_failure_aborts_silently_witness :
  Canvas.run (page_load tt)
  = (Throw (HostError "unreachable executed"), mkWorld tt [] [])
  /\ Pre.run (page_load tt)
     = (Throw (HostError "unreachable executed"), mkWorld tt [] []).
Proof.
  destruct (Universe_new_failure_aborts_silently (H := trap_engine)
              tt tt (HostError "unreachable executed") 1 eq_refl eq_refl)
    as (Hcanvas & Hpre & _).
  split; [exact Hcanvas | exact Hpre].
Defined.

(** ** An empty grid *)

(** X7. On a grid with no cell (width 0 or height 0, the other dimension
    not negative), [drawCells] asks for a view of length 0.  When [cells()]
    lies inside the buffer (its end included) the view is built and the
    routine only calls [beginPath] and [stroke]: it reads nothing and fills
    nothing.  When [cells()] lies beyond the end of the buffer, even the
    empty view is refused with a [RangeError]. *)
Theorem drawCells_empty_grid {E : Type} `{SimulationEngine E}
        (width height : Z) (w : World E) :
  0 <= width -> 0 <= height -> width = 0 \/ height = 0 ->
  (0 <= Universe_cells (engine w) <= byteLength (memory_buffer (engine w)) ->
   Canvas.drawCells width height w
   = (Normal tt,
      mkWorld (engine w) (trace w ++ [BeginPath; Stroke]) (pending w)))
  /\ (byteLength (memory_buffer (engine w)) < Universe_cells (engine w) ->
      Canvas.drawCells width height w = (Throw RangeError, w)).
Proof.
  intros Hw Hh Hzero.
  assert (width * height = 0) as Hlen by (destruct Hzero; subst; lia).
  split.
  - intros Hptr.
    rewrite (drawCells_emit_nested width height
               (mkUint8Array (memory_buffer (engine w))
                             (Universe_cells (engine w)) (width * height))).
    + unfold emit, nested_cells_events. repeat f_equal.
      destruct Hzero as [-> | ->]; cbn [Z.to_nat Zseq flat_map app].
      * now rewrite flat_map_nil.
      * reflexivity.
    + apply Uint8Array_new_fits; lia.
  - intros Hptr. apply drawCells_throw.
    apply cells_in_memory_false. unfold cells_in_memory.
    rewrite Hlen, Z.add_0_r.
    destruct (Z.leb_spec (Universe_cells (engine w))
                         (byteLength (memory_buffer (engine w)))); [lia|].
    now rewrite andb_false_r.
Qed.

Lemma drawCells_empty_grid_witness :
  Canvas.drawCells 0 2 (page_load toy_running)
  = (Normal tt, mkWorld toy_running ([] ++ [BeginPath; Stroke]) [])
  /\ Canvas.drawCells 3 0 (page_load (toy_unloaded true))
     = (Throw RangeError, page_load (toy_unloaded true)).
Proof.
  split.
  - apply (proj1 (drawCells_empty_grid (H := toy_engine) 0 2
                    (page_load toy_running)
                    ltac:(lia) ltac:(lia) ltac:(left; reflexivity))).
    vm_compute. split; discriminate.
  - apply (proj2 (drawCells_empty_grid (H := toy_engine) 3 0
                    (page_load (toy_unloaded true))
                    ltac:(lia) ltac:(lia) ltac:(right; reflexivity))).
    reflexivity.
Defined.

(** ** The whole run, from page load *)

Lemma flat_map_seq_succ {A} (f : nat -> list A) (n : nat) :
  forall a, flat_map f (seq (S a) n) = flat_map (fun k => f (S k)) (seq a n).
Proof.
  induction n as [|n IH]; intros a; [reflexivity|].
  cbn [seq flat_map]. now rewrite IH.
Qed.

Lemma flat_map_iter_tick {E : Type} `{SimulationEngine E}
      (f : E -> list Event) (e : E) (n : nat) :
  flat_map (fun k => f (Nat.iter k Universe_tick e)) (seq 0 (S n))
  = f e ++ flat_map (fun k => f (Nat.iter k Universe_tick (Universe_tick e)))
                    (seq 0 n).
Proof.
  cbn [seq flat_map Nat.iter]. f_equal.
  rewrite flat_map_seq_succ. apply flat_map_ext.
  intros k. now rewrite Nat.iter_succ_r.
Qed.

Lemma pre_frames_run {E : Type} `{SimulationEngine E} (n : nat) :
  forall w : World E,
    pending w = [PreRenderLoop] ->
    host_frames n w
    = mkWorld (Nat.iter n Universe_tick (engine w))
        (trace w
         ++ flat_map (fun k =>
              pre_frame_events (Nat.iter k Universe_tick (engine w)))
              (seq 0 n))
        [PreRenderLoop].
Proof.
  induction n as [|n IH]; intros w Hp.
  - destruct w as [e t p]. cbn in Hp. subst p.
    cbn [host_frames Nat.iter seq flat_map engine trace].
    now rewrite app_nil_r.
  - cbn [host_frames]. unfold host_frame. rewrite Hp.
    cbn [run_callbacks run_callback]. rewrite Pre_renderLoop_run.
    cbn [snd engine trace pending app].
    rewrite IH by reflexivity. cbn [engine trace].
    rewrite (flat_map_iter_tick pre_frame_events).
    rewrite <- Nat.iter_succ_r. unfold pre_frame_events at 2.
    now rewrite <- !app_assoc.
Qed.

(** X3. When the module loads and the universe is created, the text-only
    driver requests its first frame and then never stops: after [n]
    refreshes the engine has been stepped [n] times, one callback is
    pending, and the trace is the first request followed, for each
    [k < n], by the text of generation [k], one step and the next request.
    The driver makes no other call: it never touches the canvas and never
    writes to the console. *)
Theorem Pre_run_forever {E : Type} `{SimulationEngine E}
        (e0 e1 e2 : E) (n : nat) :
  init e0 = inr e1 -> Universe_new e1 = Normal e2 ->
  host_frames n (snd (Pre.run (page_load e0)))
  = mkWorld (Nat.iter n Universe_tick e2)
      ([RequestAnimationFrame PreRenderLoop]
       ++ flat_map (fun k =>
            [SetTextContent (Universe_render (Nat.iter k Universe_tick e2));
             UniverseTick;
             RequestAnimationFrame PreRenderLoop])
            (seq 0 n))
      [PreRenderLoop].
Proof.
  intros Hinit Hnew.
  assert (Pre.run (page_load e0)
          = (Normal tt,
             mkWorld e2 [RequestAnimationFrame PreRenderLoop] [PreRenderLoop]))
    as Hrun.
  { unfold Pre.run, page_load.
    unfold bind at 1. unfold await_init_catch at 1.
    cbn [engine trace pending]. rewrite Hinit.
    unfold bind at 1. unfold Universe_new_call at 1.
    cbn [engine trace pending]. now rewrite Hnew. }
  rewrite Hrun. cbn [snd]. now rewrite pre_frames_run.
Qed.

Lemma Pre_run_forever_witness :
  pending (host_frames 3 (snd (Pre.run (page_load (toy_unloaded true)))))
  = [PreRenderLoop]
  /\ engine (host_frames 3 (snd (Pre.run (page_load (toy_unloaded true)))))
     = Nat.iter 3 Universe_tick toy_running.
Proof.
  rewrite (Pre_run_forever (H := toy_engine)
             (toy_unloaded true) (mkToy true true []) toy_running 3
             eq_refl eq_refl).
  split; reflexivity.
Defined.

Lemma canvas_frames_run {E : Type} `{SimulationEngine E}
      (width height : Z) (n : nat) :
  forall w : World E,
    pending w = [CanvasRenderLoop width height] ->
    (forall k, (k < n)%nat ->
       cells_in_memory width height
         (Nat.iter (S k) Universe_tick (engine w)) = true) ->
    host_frames n w
    = mkWorld (Nat.iter n Universe_tick (engine w))
        (trace w
         ++ flat_map (fun k =>
              canvas_frame_events width height
                (Nat.iter k Universe_tick (engine w)))
              (seq 0 n))
        [CanvasRenderLoop width height].
Proof.
  induction n as [|n IH]; intros w Hp Hmem.
  - destruct w as [e t p]. cbn in Hp. subst p.
    cbn [host_frames Nat.iter seq flat_map engine trace].
    now rewrite app_nil_r.
  - cbn [host_frames]. unfold host_frame. rewrite Hp.
    cbn [run_callbacks run_callback].
    pose proof (cells_in_memory_new _ _ _ (Hmem O ltac:(lia))) as Hnew.
    cbn [Nat.iter] in Hnew.
    rewrite (renderLoop_normal width height _
               (mkWorld (engine w) (trace w) []) Hnew).
    cbn [snd engine trace pending app].
    rewrite IH.
    + cbn [engine trace].
      rewrite (flat_map_iter_tick (canvas_frame_events width height)).
      rewrite <- Nat.iter_succ_r.
      unfold canvas_frame_events at 2, state_view.
      rewrite <- app_assoc. reflexivity.
    + reflexivity.
    + intros k Hk. cbn [engine]. rewrite <- Nat.iter_succ_r.
      apply Hmem. lia.
Qed.

(** X4. When the module loads, the universe is created and the engine
    keeps its cells inside its memory for the first [n] generations, then
    after [n] refreshes the engine has been stepped [n] times, the frame
    callback is the one pending callback, and the trace is: the two size
    assignments, the first request, then for each [k < n] one complete
    frame, whose text is that of generation [k] and whose cells are read
    from the view over generation [k + 1]. *)
Theorem Canvas_run_frames {E : Type} `{SimulationEngine E}
        (e0 e1 e2 : E) (n : nat) :
  init e0 = inr e1 -> Universe_new e1 = Normal e2 ->
  (forall k, (k < n)%nat ->
     cells_in_memory (Universe_width e2) (Universe_height e2)
       (Nat.iter (S k) Universe_tick e2) = true) ->
  host_frames n (snd (Canvas.run (page_load e0)))
  = mkWorld (Nat.iter n Universe_tick e2)
      ([SetCanvasHeight ((Canvas.CELL_SIZE + 1) * Universe_height e2 + 1);
        SetCanvasWidth ((Canvas.CELL_SIZE + 1) * Universe_width e2 + 1);
        RequestAnimationFrame
          (CanvasRenderLoop (Universe_width e2) (Universe_height e2))]
       ++ flat_map (fun k =>
            [SetTextContent (Universe_render (Nat.iter k Universe_tick e2));
             UniverseTick]
            ++ grid_events (Universe_width e2) (Universe_height e2)
            ++ nested_cells_events (Universe_width e2) (Universe_height e2)
                 (mkUint8Array
                    (memory_buffer (Nat.iter (S k) Universe_tick e2))
                    (Universe_cells (Nat.iter (S k) Universe_tick e2))
                    (Universe_width e2 * Universe_height e2))
            ++ [RequestAnimationFrame
                  (CanvasRenderLoop (Universe_width e2)
                                    (Universe_height e2))])
            (seq 0 n))
      [CanvasRenderLoop (Universe_width e2) (Universe_height e2)].
Proof.
  intros Hinit Hnew Hmem.
  rewrite (run_started e0 e1 e2 Hinit Hnew). cbn [snd].
  rewrite (canvas_frames_run (Universe_width e2) (Universe_height e2) n);
    [reflexivity | reflexivity | exact Hmem].
Qed.

Lemma Canvas_run_frames_witness :
  engine (host_frames 2 (snd (Canvas.run (page_load (toy_unloaded true)))))
  = Nat.iter 2 Universe_tick toy_running
  /\ pending (host_frames 2
                (snd (Canvas.run (page_load (toy_unloaded true)))))
     = [CanvasRenderLoop 3 2].
Proof.
  rewrite (Canvas_run_frames (H := toy_engine)
             (toy_unloaded true) (mkToy true true []) toy_running 2
             eq_refl eq_refl (fun k _ => toy_cells_in_memory (S k))).
  split; reflexivity.
Defined.

(** ** What a frame paints *)

Lemma grid_events_canvas_state (width height : Z) (c : CanvasState) :
  cv_strokeStyle (canvas_run c (grid_events width height)) = Canvas.GRID_COLOR
  /\ cv_width (canvas_run c (grid_events width height)) = cv_width c
  /\ cv_height (canvas_run c (grid_events width height)) = cv_height c.
Proof.
  unfold grid_events.
  change (fun i : Z =>
            [MoveTo (i * (Canvas.CELL_SIZE + 1) + 1) 0;
             LineTo (i * (Canvas.CELL_SIZE + 1) + 1)
                    ((Canvas.CELL_SIZE + 1) * height + 1)])
    with (line_events (vertical_line height)).
  change (fun j : Z =>
            [MoveTo 0 (j * (Canvas.CELL_SIZE + 1) + 1);
             LineTo ((Canvas.CELL_SIZE + 1) * width + 1)
                    (j * (Canvas.CELL_SIZE + 1) + 1)])
    with (line_events (horizontal_line width)).
  rewrite !canvas_run_app, !canvas_run_lines.
  cbn [canvas_run fold_left canvas_step cv_painted cv_path cv_strokeStyle
       cv_width cv_height cv_fillStyle app].
  auto.
Qed.

Lemma cells_events_no_resize (width height : Z) (cells : Uint8Array) :
  filter is_resize (cells_events width height cells) = [].
Proof.
  unfold cells_events. rewrite !filter_app.
  rewrite filter_flat_map_nil by reflexivity. reflexivity.
Qed.

(** The canvas after one complete frame. *)
Lemma canvas_frame_events_canvas {E : Type} `{SimulationEngine E}
      (width height : Z) (e : E) (c : CanvasState) :
  0 < width -> 0 < height ->
  cv_painted (canvas_run c (canvas_frame_events width height e))
  = cv_painted c
    ++ [StrokedPath Canvas.GRID_COLOR
          (map (vertical_line height) (Zseq 0 (Z.to_nat (width + 1)))
           ++ map (horizontal_line width) (Zseq 0 (Z.to_nat (height + 1))))]
    ++ map (cell_rect width (state_view width height (Universe_tick e)))
           (row_major width height)
    ++ [StrokedPath Canvas.GRID_COLOR []]
  /\ cv_width (canvas_run c (canvas_frame_events width height e)) = cv_width c
  /\ cv_height (canvas_run c (canvas_frame_events width height e))
     = cv_height c.
Proof.
  intros Hw Hh. unfold canvas_frame_events.
  rewrite nested_cells_events_row_major by lia.
  rewrite !canvas_run_app.
  change (canvas_run c [SetTextContent (Universe_render e); UniverseTick])
    with c.
  set (c1 := canvas_run c (grid_events width height)).
  set (c2 := canvas_run c1 (cells_events width height
                              (state_view width height (Universe_tick e)))).
  change (canvas_run c2 [RequestAnimationFrame
                           (CanvasRenderLoop width height)]) with c2.
  destruct (grid_events_canvas_state width height c) as (Hs1 & Hw1 & Hh1).
  destruct (canvas_run_no_resize _ c1
              (cells_events_no_resize width height
                 (state_view width height (Universe_tick e))))
    as (Hw2 & Hh2).
  fold c1 in Hs1, Hw1, Hh1. fold c2 in Hw2, Hh2.
  split; [|split; congruence].
  subst c2. rewrite cells_events_canvas. subst c1.
  rewrite grid_events_canvas, Hs1. now rewrite <- !app_assoc.
Qed.

(** X9. In a complete frame on a grid of positive dimensions, whatever the
    canvas held before is kept (the frame clears nothing) and the frame
    paints on top of it, in this order: one stroke of the grid colour with
    the [width + 1] vertical and [height + 1] horizontal lines, then one
    rectangle per cell in row-major order, coloured by the byte of the
    stepped engine, then the trailing [stroke] of [drawCells], which paints
    an empty path in the grid colour.  The size of the canvas is not
    changed. *)
Theorem frame_paints_grid_then_cells {E : Type} `{SimulationEngine E}
        (width height : Z) (cells : Uint8Array) (w : World E) :
  0 < width -> 0 < height ->
  Uint8Array_new (memory_buffer (Universe_tick (engine w)))
                 (Universe_cells (Universe_tick (engine w)))
                 (width * height) = Normal cells ->
  exists t,
    Canvas.renderLoop width height w
    = (Normal tt,
       mkWorld (Universe_tick (engine w)) (trace w ++ t)
               (pending w ++ [CanvasRenderLoop width height]))
    /\ forall c,
         cv_painted (canvas_run c t)
         = cv_painted c
           ++ [StrokedPath Canvas.GRID_COLOR
                 (map (vertical_line height) (Zseq 0 (Z.to_nat (width + 1)))
                  ++ map (horizontal_line width)
                         (Zseq 0 (Z.to_nat (height + 1))))]
           ++ map (fun rc =>
                FilledRect
                  (Canvas.cellColor
                     (Uint8Array_get cells (fst rc * width + snd rc)))
                  (snd rc * (Canvas.CELL_SIZE + 1) + 1)
                  (fst rc * (Canvas.CELL_SIZE + 1) + 1)
                  Canvas.CELL_SIZE Canvas.CELL_SIZE)
                (row_major width height)
           ++ [StrokedPath Canvas.GRID_COLOR []]
         /\ cv_width (canvas_run c t) = cv_width c
         /\ cv_height (canvas_run c t) = cv_height c.
Proof.
  intros Hw Hh Hnew.
  exists (canvas_frame_events width height (engine w)).
  pose proof (Uint8Array_new_Normal _ _ _ _ Hnew) as (Hcells & _).
  split.
  - rewrite (renderLoop_normal _ _ _ _ Hnew).
    unfold canvas_frame_events, state_view. now rewrite Hcells.
  - intros c.
    destruct (canvas_frame_events_canvas width height (engine w) c Hw Hh)
      as (Hp & Hcw & Hch).
    split; [|split; assumption].
    rewrite Hp. unfold state_view. now rewrite <- Hcells.
Qed.

Lemma frame_paints_grid_then_cells_witness :
  exists t,
    Canvas.renderLoop 3 2 (page_load toy_running)
    = (Normal tt,
       mkWorld (Universe_tick toy_running) ([] ++ t)
               ([] ++ [CanvasRenderLoop 3 2]))
    /\ List.length (cv_painted (canvas_run initial_canvas t)) = 8%nat.
Proof.
  destruct (frame_paints_grid_then_cells (H := toy_engine) 3 2
              (mkUint8Array (map toy_flip toy_cells) 1 6)
              (page_load toy_running) ltac:(lia) ltac:(lia) eq_refl)
    as (t & Hrun & Hcanvas).
  exists t. split; [exact Hrun|].
  rewrite (proj1 (Hcanvas initial_canvas)). reflexivity.
Defined.

(** ** Everything painted lies on the canvas *)





(** ** The cell rectangles do not overlap *)

Lemma cells_events_fillRect (width height : Z) (cells : Uint8Array) :
  filter is_fillRect (cells_events width height cells)
  = map (fun rc =>
           FillRect (snd rc * (Canvas.CELL_SIZE + 1) + 1)
                    (fst rc * (Canvas.CELL_SIZE + 1) + 1)
                    Canvas.CELL_SIZE Canvas.CELL_SIZE)
        (row_major width height).
Proof.
  unfold cells_events. rewrite !filter_app, filter_flat_map.
  cbn [filter is_fillRect app]. rewrite app_nil_r.
  apply flat_map_singleton.
Qed.

Lemma row_major_nth_nat (width height : Z) (i : nat) (rc : Z * Z) :
  nth_error (row_major width height) i = Some rc ->
  rc = (Z.of_nat i / width, Z.of_nat i mod width)
  /\ 0 <= Z.of_nat i < width * height.
Proof.
  intros Hnth.
  assert (i < List.length (row_major width height))%nat as Hlt
      by (apply nth_error_Some; congruence).
  rewrite row_major_length in Hlt.
  assert (0 <= Z.of_nat i < width * height) as Hrange by lia.
  pose proof (row_major_nth width height (Z.of_nat i) Hrange) as Hk.
  rewrite Nat2Z.id in Hk. split; [congruence | exact Hrange].
Qed.

(** X6. On a grid of positive dimensions, any two different rectangles that
    one [drawCells] fills are separated by at least one pixel column or one
    pixel row: the rectangles of two cells never touch or overlap. *)
Theorem drawCells_rects_disjoint {E : Type} `{SimulationEngine E}
        (width height : Z) (cells : Uint8Array) (w : World E) :
  0 < width -> 0 < height ->
  Uint8Array_new (memory_buffer (engine w)) (Universe_cells (engine w))
                 (width * height) = Normal cells ->
  exists t,
    Canvas.drawCells width height w
    = (Normal tt, mkWorld (engine w) (trace w ++ t) (pending w))
    /\ forall i j x1 y1 w1 h1 x2 y2 w2 h2,
         i <> j ->
         nth_error (filter is_fillRect t) i = Some (FillRect x1 y1 w1 h1) ->
         nth_error (filter is_fillRect t) j = Some (FillRect x2 y2 w2 h2) ->
         x1 + w1 < x2 \/ x2 + w2 < x1 \/ y1 + h1 < y2 \/ y2 + h2 < y1.
Proof.
  intros Hw Hh Hnew. exists (cells_events width height cells).
  split; [apply drawCells_emit; assumption || lia|].
  intros i j x1 y1 w1 h1 x2 y2 w2 h2 Hij Hi Hj.
  rewrite cells_events_fillRect, nth_error_map in Hi, Hj.
  destruct (nth_error (row_major width height) i) as [rc1|] eqn:H1;
    [|discriminate].
  destruct (nth_error (row_major width height) j) as [rc2|] eqn:H2;
    [|discriminate].
  apply row_major_nth_nat in H1, H2.
  destruct H1 as (-> & Hri), H2 as (-> & Hrj).
  cbn [option_map fst snd] in Hi, Hj.
  inversion Hi; inversion Hj; subst; clear Hi Hj.
  pose proof (Z.div_mod (Z.of_nat i) width ltac:(lia)) as Hdi.
  pose proof (Z.div_mod (Z.of_nat j) width ltac:(lia)) as Hdj.
  pose proof (Z.mod_pos_bound (Z.of_nat i) width Hw) as Hmi.
  pose proof (Z.mod_pos_bound (Z.of_nat j) width Hw) as Hmj.
  unfold Canvas.CELL_SIZE.
  destruct (Z.eq_dec (Z.of_nat i / width) (Z.of_nat j / width)) as [Hr|Hr];
    [|lia].
  destruct (Z.eq_dec (Z.of_nat i mod width) (Z.of_nat j mod width))
    as [Hc|Hc]; [|lia].
  exfalso. apply Hij. apply Nat2Z.inj. rewrite Hdi, Hdj, Hr, Hc. reflexivity.
Qed.

Lemma drawCells_rects_disjoint_witness :
  exists t,
    Canvas.drawCells 3 2 (page_load toy_running)
    = (Normal tt, mkWorld toy_running ([] ++ t) [])
    /\ (nth_error (filter is_fillRect t) 0 = Some (FillRect 1 1 5 5) ->
        nth_error (filter is_fillRect t) 1 = Some (FillRect 7 1 5 5) ->
        1 + 5 < 7 \/ 7 + 5 < 1 \/ 1 + 5 < 1 \/ 1 + 5 < 1).
Proof.
  destruct (drawCells_rects_disjoint (H := toy_engine) 3 2
              (mkUint8Array toy_cells 1 6) (page_load toy_running)
              ltac:(lia) ltac:(lia) eq_refl)
    as (t & Hrun & Hdisj).
  exists t. split; [exact Hrun|].
  apply (Hdisj 0%nat 1%nat). discriminate.
Defined.

(** ** The cost of a frame *)

Lemma length_filter_flat_map {A} (p : Event -> bool) (f : A -> list Event)
      (c : nat) (l : list A) :
  (forall a, List.length (filter p (f a)) = c) ->
  List.length (filter p (flat_map f l)) = (c * List.length l)%nat.
Proof.
  intros Hf. induction l as [|a l IH]; cbn [flat_map List.length].
  - cbn. lia.
  - rewrite filter_app, length_app, Hf, IH. lia.
Qed.

Lemma grid_events_calls (width height : Z) :
  0 <= width -> 0 <= height ->
  Z.of_nat (List.length (filter is_canvas_call (grid_events width height)))
  = 2 * (width + 1) + 2 * (height + 1) + 3.
Proof.
  intros Hw Hh. unfold grid_events.
  rewrite !filter_app, !length_app.
  rewrite (length_filter_flat_map _ _ 2) by reflexivity.
  rewrite (length_filter_flat_map _ _ 2) by reflexivity.
  rewrite !Zseq_length. cbn [filter is_canvas_call List.length]. lia.
Qed.

Lemma cells_events_calls (width height : Z) (cells : Uint8Array) :
  0 <= width * height ->
  Z.of_nat (List.length
              (filter is_canvas_call (cells_events width height cells)))
  = 2 * (width * height) + 2
  /\ Z.of_nat (List.length
                 (filter is_fillStyle (cells_events width height cells)))
     = width * height.
Proof.
  intros Hwh. unfold cells_events.
  rewrite !filter_app, !length_app.
  rewrite (length_filter_flat_map _ _ 2) by reflexivity.
  rewrite (length_filter_flat_map _ _ 1) by reflexivity.
  rewrite row_major_length. cbn [filter is_canvas_call is_fillStyle
                                 List.length].
  lia.
Qed.

(** X8. A complete frame on a grid of positive dimensions makes exactly
    [2*(width+1) + 2*(height+1) + 2*width*height + 5] calls on the 2D
    context, of which [width*height] are fill-style assignments: the style
    is assigned once per cell, whether or not the colour changes from one
    cell to the next. *)
Theorem frame_canvas_call_count {E : Type} `{SimulationEngine E}
        (width height : Z) (cells : Uint8Array) (w : World E) :
  0 < width -> 0 < height ->
  Uint8Array_new (memory_buffer (Universe_tick (engine w)))
                 (Universe_cells (Universe_tick (engine w)))
                 (width * height) = Normal cells ->
  exists t,
    Canvas.renderLoop width height w
    = (Normal tt,
       mkWorld (Universe_tick (engine w)) (trace w ++ t)
               (pending w ++ [CanvasRenderLoop width height]))
    /\ Z.of_nat (List.length (filter is_canvas_call t))
       = 2 * (width + 1) + 2 * (height + 1) + 2 * (width * height) + 5
    /\ Z.of_nat (List.length (filter is_fillStyle t)) = width * height
    /\ Z.of_nat (List.length (filter is_fillRect t)) = width * height.
Proof.
  intros Hw Hh Hnew.
  eexists. split; [apply (renderLoop_normal _ _ _ _ Hnew)|].
  rewrite nested_cells_events_row_major by lia.
  assert (0 <= width * height) as Hwh by nia.
  destruct (cells_events_calls width height cells Hwh) as (Hcalls & Hstyles).
  pose proof (grid_events_calls width height ltac:(lia) ltac:(lia)) as Hgrid.
  assert (filter is_fillStyle (grid_events width height) = []) as Hgs.
  { unfold grid_events. rewrite !filter_app.
    rewrite !filter_flat_map_nil by reflexivity. reflexivity. }
  assert (filter is_fillRect (grid_events width height) = []) as Hgr.
  { unfold grid_events. rewrite !filter_app.
    rewrite !filter_flat_map_nil by reflexivity. reflexivity. }
  split; [|split].
  - rewrite filter_app. cbn [filter is_canvas_call app].
    rewrite !filter_app, !length_app. cbn [filter is_canvas_call List.length].
    lia.
  - rewrite filter_app. cbn [filter is_fillStyle app].
    rewrite !filter_app, Hgs, !length_app.
    cbn [filter is_fillStyle List.length app]. lia.
  - rewrite filter_app. cbn [filter is_fillRect app].
    rewrite !filter_app, Hgr, cells_events_fillRect, !length_app, length_map,
      row_major_length.
    cbn [filter is_fillRect List.length app]. lia.
Qed.

Lemma frame_canvas_call_count_witness :
  exists t,
    Canvas.renderLoop 3 2 (page_load toy_running)
    = (Normal tt,
       mkWorld (Universe_tick toy_running) ([] ++ t)
               ([] ++ [CanvasRenderLoop 3 2]))
    /\ Z.of_nat (List.length (filter is_canvas_call t)) = 31.
Proof.
  destruct (frame_canvas_call_count (H := toy_engine) 3 2
              (mkUint8Array (map toy_flip toy_cells) 1 6)
              (page_load toy_running) ltac:(lia) ltac:(lia) eq_refl)
    as (t & Hrun & Hcount & _).
  exists t. split; [exact Hrun | exact Hcount].
Defined.
